(** * GitHubScreenshoter: a shallow embedding of [main.py]

    The program walks a repository listing through the GitHub contents API,
    downloads every file with an allow-listed extension and renders its text
    as a PNG under [screenshots/].  This development embeds the four functions
    of [main.py] ([get_files_from_github], [create_image_from_text],
    [process_files], [main]) together with the parts of Python they rely on
    (string methods, [os.path.join], the int/float arithmetic of the canvas
    size) and proves the properties of the specification about them. *)

From Stdlib Require Import ZArith QArith Qround Qpower Qabs Lia Lra Lqa String Ascii List.
From Stdlib Require Import Floats Uint63.
From stdpp Require Import gmap list.

(* ===================================================================== *)
(** ** Python [float]: binary64 with round-to-nearest-even               *)
(* ===================================================================== *)

(** A finite binary64 value is a rational; every arithmetic operation is the
    exact rational operation followed by rounding to 53 significant bits,
    ties to even.  The exponent range is left unbounded: overflow to [inf]
    and subnormals need magnitudes beyond [2^1023] or below [2^-1022], far
    from any pixel count. *)
Module Float64.
Local Open Scope Q_scope.

Definition prec : Z := 53.

(** [ilog2 x] is [floor (log2 x)] for [x > 0]. *)
Definition ilog2 (x : Q) : Z :=
  let d := (Z.log2 (Qnum x) - Z.log2 (Zpos (Qden x)))%Z in
  if Qle_bool (2 ^ d) x then d else (d - 1)%Z.

(** Nearest integer, ties to even. *)
Definition rne (x : Q) : Z :=
  let f := Qfloor x in
  match Qcompare (x - inject_Z f) (1 # 2) with
  | Lt => f
  | Gt => (f + 1)%Z
  | Eq => if Z.even f then f else (f + 1)%Z
  end.

Definition rnd_pos (x : Q) : Q :=
  let e := ilog2 x in
  Qred (inject_Z (rne (x * 2 ^ (prec - 1 - e))) * 2 ^ (e - (prec - 1))).

Definition rnd (x : Q) : Q :=
  match Qnum x with
  | Z0 => 0
  | Zpos _ => rnd_pos x
  | Zneg _ => - rnd_pos (- x)
  end.

(** The unit roundoff [2^-53]. *)
Definition eps : Q := 1 # 9007199254740992.

(** Reading a value of Rocq's primitive binary64 floats as a rational, to
    compare [rnd] with the arithmetic of the kernel. *)
Definition Q_of_spec (f : SpecFloat.spec_float) : option Q :=
  match f with
  | SpecFloat.S754_zero _ => Some 0
  | SpecFloat.S754_finite sign m e =>
      Some (Qred ((if sign then -1 else 1) * inject_Z (Z.pos m) * 2 ^ e))
  | _ => None
  end.

Definition Q_of_prim (f : PrimFloat.float) : option Q :=
  Q_of_spec (FloatOps.Prim2SF f).

Definition prim_of_Z (z : Z) : PrimFloat.float :=
  PrimFloat.of_uint63 (Uint63.of_Z z).

End Float64.

(* ===================================================================== *)
(** ** Python numbers                                                     *)
(* ===================================================================== *)

(** [int] is unbounded, [float] is binary64; an operation with a float
    operand converts the other one and rounds the result. *)
Inductive pynum : Type :=
  | PyInt (z : Z)
  | PyFloat (q : Q).

Definition to_float (n : pynum) : Q :=
  match n with
  | PyInt z => Float64.rnd (inject_Z z)
  | PyFloat q => q
  end.

Definition py_add (a b : pynum) : pynum :=
  match a, b with
  | PyInt x, PyInt y => PyInt (x + y)
  | _, _ => PyFloat (Float64.rnd (to_float a + to_float b))
  end.

Definition py_mul (a b : pynum) : pynum :=
  match a, b with
  | PyInt x, PyInt y => PyInt (x * y)
  | _, _ => PyFloat (Float64.rnd (to_float a * to_float b))
  end.

(** [a / b] on two ints: the correctly rounded quotient ([b] is not zero at
    the one place the program divides). *)
Definition py_truediv (a b : Z) : pynum :=
  PyFloat (Float64.rnd (inject_Z a / inject_Z b)).

(** [int(x)]: truncation toward zero. *)
Definition py_int (n : pynum) : Z :=
  match n with
  | PyInt z => z
  | PyFloat q => (Qnum q ÷ Z.pos (Qden q))%Z
  end.

(** [sum] of a list of ints. *)
Definition py_sum (l : list Z) : Z := fold_left Z.add l 0%Z.

(* ===================================================================== *)
(** ** Python strings                                                     *)
(* ===================================================================== *)

(** A [str] is a sequence of Unicode code points. *)
Abbreviation char := N (only parsing).
Abbreviation str := (list N) (only parsing).

(** String literals of the source, written [u "..."]. *)
Definition u (s : string) : str := map N_of_ascii (list_ascii_of_string s).

(** [str.isspace] on one character: the code points [str.strip] removes. *)
Definition isspace (c : char) : bool :=
  ((0x09 <=? c) && (c <=? 0x0d) || (0x1c <=? c) && (c <=? 0x1f)
   || (c =? 0x20) || (c =? 0x85) || (c =? 0xa0) || (c =? 0x1680)
   || (0x2000 <=? c) && (c <=? 0x200a) || (c =? 0x2028) || (c =? 0x2029)
   || (c =? 0x202f) || (c =? 0x205f) || (c =? 0x3000))%N.

Fixpoint lstrip (s : str) : str :=
  match s with
  | [] => []
  | c :: s' => if isspace c then lstrip s' else s
  end.

Definition rstrip (s : str) : str := rev (lstrip (rev s)).

Definition strip (s : str) : str := rstrip (lstrip s).

(** Truth value of a string: non-empty. *)
Definition str_truthy (s : str) : bool :=
  match s with [] => false | _ => true end.

(** The line boundaries of [str.splitlines]. *)
Definition is_linebreak (c : char) : bool :=
  ((0x0a <=? c) && (c <=? 0x0d) || (0x1c <=? c) && (c <=? 0x1e)
   || (c =? 0x85) || (c =? 0x2028) || (c =? 0x2029))%N.

(** [splitlines_from cur after_cr s]: [cur] is the line being read (if any
    character of it has been seen), [after_cr] says that the previous
    character was a carriage return that ended a line, so that a line feed
    right after it belongs to the same boundary. *)
Fixpoint splitlines_from (cur : option str) (after_cr : bool) (s : str)
  : list str :=
  match s with
  | [] => match cur with Some l => [l] | None => [] end
  | c :: s' =>
      if after_cr && (c =? 0x0a)%N then splitlines_from None false s'
      else if is_linebreak c
           then default [] cur :: splitlines_from None (c =? 0x0d)%N s'
           else splitlines_from (Some (default [] cur ++ [c])) false s'
  end.

Definition splitlines (s : str) : list str := splitlines_from None false s.

Definition startswith (s pre : str) : bool :=
  bool_decide (take (length pre) s = pre).

Definition endswith (s suf : str) : bool :=
  bool_decide (drop (length s - length suf) s = suf).

(** [s.replace(old, new)] for a non-empty [old]: occurrences are replaced
    from the left and do not overlap; [skip] counts the characters of a
    replaced occurrence still to be dropped. *)
Fixpoint replace_from (old new : str) (skip : nat) (s : str) : str :=
  match s with
  | [] => []
  | c :: s' =>
      match skip with
      | S k => replace_from old new k s'
      | O => if startswith s old
             then new ++ replace_from old new (length old - 1) s'
             else c :: replace_from old new 0 s'
      end
  end.

Definition replace (s old new : str) : str := replace_from old new 0 s.

(** [os.path.join(a, b)] of [posixpath]. *)
Definition os_path_join (a b : str) : str :=
  if startswith b (u "/") then b
  else if negb (str_truthy a) || endswith a (u "/") then a ++ b
  else a ++ u "/" ++ b.

(* ===================================================================== *)
(** ** Configuration and data model                                       *)
(* ===================================================================== *)

(** Outside the model are the console output ([print]), the parsing of the
    command line, the JSON decoder and the internals of Pillow: an answer
    carries what [response.json()] does with its body, a face is its metrics,
    and a canvas is its mode, size, background and the text painted on it, of
    which the PNG written to disk is a function.  Paths are joined as
    [posixpath] joins them. *)

Definition OUTPUT_DIR : str := u "screenshots".
Definition FILE_EXTENSIONS : list str :=
  map u [".txt"; ".py"; ".js"; ".html"; ".css"; ".java"; ".c"; ".cpp"; ".go";
         ".php"; ".rb"; ".rs"; ".swift"; ".kt"; ".ts"]%string.
Definition MAX_RETRIES : Z := 3.
Definition FONT_SIZE : Z := 15.
Definition PADDING : Z := 20.
Definition LINE_SPACING : Z := 5.

(** One entry of a contents listing: the four keys the program reads. *)
Record file_info : Type := {
  fi_type : str;
  fi_name : str;
  fi_url : str;
  fi_download_url : str
}.

(** A decoded JSON body, as far as the program tells values apart: an array
    of entries, or a value that is no array (an object, a string, a number,
    a boolean or [null]), of which the program only sees whether it is
    truthy.  The elements of an array are taken to be objects with the four
    keys above and strings under them, as the contents API sends them;
    arrays of anything else are not modelled. *)
Inductive json_value : Type :=
  | JsonArray (entries : list file_info)
  | JsonOther (truthy : bool).

(** What [response.json()] does: it returns the decoded body, or raises.  For
    a body that does not decode, requests 2.27 and later raise their own
    [JSONDecodeError], which is a [RequestException]; earlier versions let
    the decoder's [ValueError] through, which is not. *)
Inductive json_result : Type :=
  | JSONDecodeError
  | ValueError
  | Decoded (v : json_value).

(** An HTTP response: its status, its body as text, and [json()]. *)
Record response : Type := {
  status_code : Z;
  text : str;
  json : json_result
}.

(** [requests.get] returns a response or raises a [RequestException]. *)
Inductive http_result : Type :=
  | RequestException
  | Response (r : response).

Record request : Type := {
  req_url : str;
  req_headers : gmap str str
}.

(** A typeface as the rasterizer uses it: [getbbox] (absent in old Pillow
    versions, where the attribute lookup fails) and [getsize]. *)
Record font : Type := {
  getbbox : option (str -> Z * Z * Z * Z);
  getsize : str -> Z * Z
}.

Record text_op : Type := {
  op_xy : Z * pynum;
  op_text : str;
  op_font : font;
  op_fill : str
}.

(** A canvas: mode, size, background and the text painted on it, in order. *)
Record image : Type := {
  img_mode : str;
  img_size : Z * Z;
  img_color : str;
  img_text : list text_op
}.

(** What the program does to the outside world. *)
Inductive event : Type :=
  | EGet (rq : request)
  | ESleep (secs : Z)
  | EMakedirs (p : str)
  | ESave (p : str) (img : image).

(** The file system behind [os.path.exists], [os.makedirs] and [Image.save];
    [None] is a raised [OSError]. *)
Class FileSystem (FS : Type) : Type := {
  path_exists : FS -> str -> bool;
  makedirs : FS -> str -> option FS;
  save : FS -> str -> image -> option FS
}.

(** The state of a run: how many requests were sent, and the disk. *)
Record world (FS : Type) : Type := {
  clock : nat;
  disk : FS
}.
Arguments clock {FS} _.
Arguments disk {FS} _.
Arguments Build_world {FS} _ _.

(** A call returns, lets an exception escape, or exceeds the recursion depth
    granted to it. *)
Inductive outcome (A : Type) : Type :=
  | Ok (a : A)
  | Raised
  | OutOfFuel.
Arguments Ok {A} _.
Arguments Raised {A}.
Arguments OutOfFuel {A}.

Definition M (FS A : Type) : Type :=
  world FS -> outcome A * world FS * list event.

Definition ret {FS A : Type} (a : A) : M FS A := fun w => (Ok a, w, []).

Definition bind {FS A B : Type} (m : M FS A) (k : A -> M FS B) : M FS B :=
  fun w =>
    match m w with
    | (Ok a, w1, ev1) => let '(o, w2, ev2) := k a w1 in (o, w2, ev1 ++ ev2)
    | (Raised, w1, ev1) => (Raised, w1, ev1)
    | (OutOfFuel, w1, ev1) => (OutOfFuel, w1, ev1)
    end.

Definition raise {FS A : Type} : M FS A := fun w => (Raised, w, []).
Definition out_of_fuel {FS A : Type} : M FS A := fun w => (OutOfFuel, w, []).

Declare Scope py_scope.
Delimit Scope py_scope with py.
Notation "x <- c1 ;; c2" := (bind c1 (fun x => c2))
  (at level 100, c1 at next level, c2 at level 200, right associativity)
  : py_scope.
Notation "c1 ;; c2" := (bind c1 (fun _ => c2))
  (at level 100, c2 at level 200, right associativity) : py_scope.

(** [for x in l: body(x)] *)
Fixpoint for_each {FS A : Type} (l : list A) (body : A -> M FS unit)
  : M FS unit :=
  match l with
  | [] => ret tt
  | x :: rest => (body x ;; for_each rest body)%py
  end.

(** [range(n)] *)
Definition py_range (n : Z) : list Z := map Z.of_nat (seq 0 (Z.to_nat n)).

Definition outcome_of {FS A : Type} (r : outcome A * world FS * list event)
  : outcome A := r.1.1.
Definition world_of {FS A : Type} (r : outcome A * world FS * list event)
  : world FS := r.1.2.
Definition events_of {FS A : Type} (r : outcome A * world FS * list event)
  : list event := r.2.

(* ===================================================================== *)
(** ** The program                                                        *)
(* ===================================================================== *)

Section Program.
Context {FS : Type} `{FileSystem FS}.

(** The remote side: the answer to the [n]-th request of the run. *)
Variable server : nat -> request -> http_result.

(** [ImageFont.truetype(name, size)] ([None]: the face is not installed, an
    [IOError]) and [ImageFont.load_default()]. *)
Variable truetype : str -> Z -> option font.
Variable load_default : font.

Local Open Scope py_scope.

(** *** Primitive effects *)

Definition requests_get (url : str) (headers : gmap str str)
  : M FS http_result :=
  fun w =>
    let rq := {| req_url := url; req_headers := headers |} in
    (Ok (server (clock w) rq),
     {| clock := S (clock w); disk := disk w |},
     [EGet rq]).

Definition time_sleep (secs : Z) : M FS unit :=
  fun w => (Ok tt, w, [ESleep secs]).

Definition os_path_exists (p : str) : M FS bool :=
  fun w => (Ok (path_exists (disk w) p), w, []).

Definition os_makedirs (p : str) : M FS unit :=
  fun w =>
    match makedirs (disk w) p with
    | Some d => (Ok tt, {| clock := clock w; disk := d |}, [EMakedirs p])
    | None => (Raised, w, [EMakedirs p])
    end.

Definition image_save (img : image) (p : str) : M FS unit :=
  fun w =>
    match save (disk w) p img with
    | Some d => (Ok tt, {| clock := clock w; disk := d |}, [ESave p img])
    | None => (Raised, w, [ESave p img])
    end.

(** *** [get_files_from_github] *)

Definition listing_headers (token : option str) : gmap str str :=
  let headers := {[ u "User-Agent" := u "GitHubScreenshoter" ]} in
  match token with
  | Some t =>
      if str_truthy t
      then <[ u "Authorization" := u "token " ++ t ]> headers
      else headers
  | None => headers
  end.

(** The body of [for attempt in range(retries)], over the attempts left.
    [go_on] is what follows the [try] statement when it has not returned: the
    pause, unless this was the last attempt, and the attempts left.  The
    [try] covers [requests.get] and [response.json()] alike: a
    [RequestException] from either is caught, any other exception escapes.
    The function returns what [response.json()] returned, whatever it is;
    [None] is the failure value of the last line, and a decoded [null],
    which in Python is that same value, is [Some (JsonOther false)]. *)
Fixpoint fetch_attempts (url : str) (headers : gmap str str) (retries : Z)
    (attempts : list Z) : M FS (option json_value) :=
  match attempts with
  | [] => ret None
  | attempt :: rest =>
      let go_on :=
        (if (attempt <? retries - 1)%Z then time_sleep 1 else ret tt) ;;
        fetch_attempts url headers retries rest in
      res <- requests_get url headers ;;
      match res with
      | RequestException => go_on
      | Response r =>
          if (status_code r =? 200)%Z then
            match json r with
            | Decoded v => ret (Some v)
            | JSONDecodeError => go_on
            | ValueError => raise
            end
          else go_on
      end
  end.

Definition get_files_from_github (url : str) (token : option str)
    (retries : Z) : M FS (option json_value) :=
  fetch_attempts url (listing_headers token) retries (py_range retries).

(** *** [create_image_from_text] *)

Definition load_font : font :=
  match truetype (u "cour.ttf") FONT_SIZE with
  | Some f => f
  | None => load_default
  end.

(** Width and height of one line: from [getbbox], or from [getsize] where the
    face has no [getbbox]. *)
Definition measure (fnt : font) (line : str) : Z * Z :=
  match getbbox fnt with
  | Some bb => let '(x0, y0, x1, y1) := bb line in ((x1 - x0)%Z, (y1 - y0)%Z)
  | None => getsize fnt line
  end.

(** The measuring loop, from the current [max_width] and [line_heights]. *)
Fixpoint measure_lines (fnt : font) (lines : list str) (max_width : Z)
    (line_heights : list Z) : Z * list Z :=
  match lines with
  | [] => (max_width, line_heights)
  | line :: rest =>
      let '(line_width, line_height) := measure fnt line in
      measure_lines fnt rest
        (if (line_width >? max_width)%Z then line_width else max_width)
        (line_heights ++ [line_height])
  end.

Definition avg_line_height (line_heights : list Z) : pynum :=
  match line_heights with
  | [] => PyInt FONT_SIZE
  | _ => py_truediv (py_sum line_heights) (Z.of_nat (length line_heights))
  end.

Definition total_height (avg : pynum) (lines : list str) : Z :=
  py_int (py_mul (py_add avg (PyInt LINE_SPACING))
                 (PyInt (Z.of_nat (length lines)))).

Definition draw_text (img : image) (xy : Z * pynum) (line : str) (fnt : font)
    (fill : str) : image :=
  {| img_mode := img_mode img; img_size := img_size img;
     img_color := img_color img;
     img_text := img_text img ++
       [{| op_xy := xy; op_text := line; op_font := fnt; op_fill := fill |}] |}.

(** The drawing loop, from the current [y_text]. *)
Fixpoint draw_lines (fnt : font) (avg : pynum) (lines : list str)
    (y_text : pynum) (img : image) : image :=
  match lines with
  | [] => img
  | line :: rest =>
      draw_lines fnt avg rest
        (py_add y_text (py_add avg (PyInt LINE_SPACING)))
        (draw_text img (PADDING, y_text) line fnt (u "black"))
  end.

(** The canvas of [content], as handed to [image.save]. *)
Definition rendered_image (content : str) : image :=
  let fnt := load_font in
  let lines := splitlines content in
  let '(max_width, line_heights) := measure_lines fnt lines 0%Z [] in
  let avg := avg_line_height line_heights in
  let img_width := (max_width + PADDING * 2)%Z in
  let img_height := (total_height avg lines + PADDING * 2)%Z in
  let img := {| img_mode := u "RGB"; img_size := (img_width, img_height);
                img_color := u "white"; img_text := [] |} in
  draw_lines fnt avg lines (PyInt PADDING) img.

Definition create_image_from_text (content output_path : str) : M FS unit :=
  image_save (rendered_image content) output_path.

(** *** [process_files] *)

Definition download_headers : gmap str str :=
  {[ u "User-Agent" := u "GitHubScreenshoter" ]}.

Definition has_allowed_extension (name : str) : bool :=
  existsb (fun ext => endswith name ext) FILE_EXTENSIONS.

(** The body of the loop over [files]; [recurse] is [process_files] itself.
    [if sub_files:] lets a non-empty array and any other truthy value
    through; called on a value that is not a list (an object, a string, a
    number, [true]), [process_files] raises a [TypeError] before it does
    anything, when it iterates the value or subscripts what the iteration
    yields. *)
Definition process_file_info
    (recurse : list file_info -> option str -> str -> M FS unit)
    (file_info : file_info) (token : option str) (path : str) : M FS unit :=
  if bool_decide (fi_type file_info = u "file")
     && has_allowed_extension (fi_name file_info)
  then
    res <- requests_get (fi_download_url file_info) download_headers ;;
    match res with
    | RequestException => raise
    | Response file_content_response =>
        if (status_code file_content_response =? 200)%Z then
          let file_content := text file_content_response in
          if str_truthy (strip file_content) then
            let output_dir := os_path_join OUTPUT_DIR path in
            present <- os_path_exists output_dir ;;
            (if negb present then os_makedirs output_dir else ret tt) ;;
            let output_path :=
              os_path_join output_dir (fi_name file_info ++ u ".png") in
            create_image_from_text file_content output_path
          else ret tt
        else ret tt
    end
  else if bool_decide (fi_type file_info = u "dir") then
    let new_path := os_path_join path (fi_name file_info) in
    sub_files <- get_files_from_github (fi_url file_info) token MAX_RETRIES ;;
    match sub_files with
    | Some (JsonArray ((_ :: _) as listing)) => recurse listing token new_path
    | Some (JsonOther true) => raise
    | _ => ret tt
    end
  else ret tt.

(** [fuel] bounds the depth of the recursion, which in the program is the
    depth of the remote tree. *)
Fixpoint process_files (fuel : nat) (files : list file_info)
    (token : option str) (path : str) : M FS unit :=
  match fuel with
  | O => out_of_fuel
  | S n =>
      for_each files
        (fun file_info => process_file_info (process_files n) file_info token path)
  end.

(** *** [main], from the parsed arguments *)

Definition main (fuel : nat) (repo_url : str) (token : option str)
  : M FS unit :=
  let repo_path := replace repo_url (u "https://github.com/") (u "") in
  let api_url :=
    u "https://api.github.com/repos/" ++ repo_path ++ u "/contents" in
  files <- get_files_from_github api_url token MAX_RETRIES ;;
  match files with
  | Some (JsonArray ((_ :: _) as listing)) =>
      process_files fuel listing token (u "")
  | Some (JsonOther true) => raise
  | _ => ret tt
  end.

End Program.

(* ===================================================================== *)
(** ** Concrete collaborators, for running the program                    *)
(* ===================================================================== *)

(** A disk in memory: the directories made and the files written.
    [makedirs] fails on a path that exists, as [os.makedirs] does. *)
Record mem_fs : Type := {
  fs_dirs : gset str;
  fs_files : gmap str image
}.

Definition empty_fs : mem_fs := {| fs_dirs := ∅; fs_files := ∅ |}.

Definition mem_exists (d : mem_fs) (p : str) : bool :=
  bool_decide (p ∈ fs_dirs d) || bool_decide (is_Some (fs_files d !! p)).

#[export] Instance mem_fs_FileSystem : FileSystem mem_fs := {|
  path_exists := mem_exists;
  makedirs d p :=
    if mem_exists d p then None
    else Some {| fs_dirs := {[ p ]} ∪ fs_dirs d; fs_files := fs_files d |};
  save d p img :=
    Some {| fs_dirs := fs_dirs d; fs_files := <[ p := img ]> (fs_files d) |}
|}.

Definition start : world mem_fs := {| clock := 0; disk := empty_fs |}.

(** A bitmap face in the manner of Pillow's built-in one: every glyph is
    6 pixels wide and 11 high. *)
Definition bitmap_font : font := {|
  getbbox := Some (fun s => (0, 0, 6 * Z.of_nat (length s), 11)%Z);
  getsize := fun s => ((6 * Z.of_nat (length s))%Z, 11%Z)
|}.

(** A scalable face whose box is the inked area: 9 pixels per glyph, 13 pixels
    from the top of the tallest glyph to the lowest descender, and an empty
    box for an empty line. *)
Definition ink_font : font := {|
  getbbox := Some (fun s =>
    match s with
    | [] => (0, 0, 0, 0)%Z
    | _ => (0, 3, 9 * Z.of_nat (length s), 16)%Z
    end);
  getsize := fun s => ((9 * Z.of_nat (length s))%Z, 16%Z)
|}.

(** A face of an old Pillow, without [getbbox]. *)
Definition legacy_font : font := {|
  getbbox := None;
  getsize := fun s => ((6 * Z.of_nat (length s))%Z, 11%Z)
|}.

Definition no_truetype : str -> Z -> option font := fun _ _ => None.
Definition courier (f : font) : str -> Z -> option font :=
  fun name _ => if bool_decide (name = u "cour.ttf") then Some f else None.

Definition entry (type name url download_url : string) : file_info :=
  {| fi_type := u type; fi_name := u name; fi_url := u url;
     fi_download_url := u download_url |}.

(** A listing, a body of text that is no JSON, and an empty body with a
    status. *)
Definition ok_listing (l : list file_info) : http_result :=
  Response {| status_code := 200; text := [];
              json := Decoded (JsonArray l) |}.

Definition ok_text (s : str) : http_result :=
  Response {| status_code := 200; text := s; json := JSONDecodeError |}.

Definition status (code : Z) : http_result :=
  Response {| status_code := code; text := []; json := JSONDecodeError |}.

(** A small repository: [main.py], [notes.md], [blank.txt] and the directory
    [src], which holds [utils], which holds [helper.py]; the directory
    [empty] has no entries and the listing of [broken] always fails. *)
Definition repo_root : list file_info :=
  [ entry "file" "main.py" "api/main.py" "raw/main.py";
    entry "file" "notes.md" "api/notes.md" "raw/notes.md";
    entry "file" "blank.txt" "api/blank.txt" "raw/blank.txt";
    entry "dir" "empty" "api/empty" "";
    entry "dir" "broken" "api/broken" "";
    entry "dir" "src" "api/src" "" ].

Definition repo_server : nat -> request -> http_result :=
  fun _ rq =>
    let url := req_url rq in
    if bool_decide (url = u "https://api.github.com/repos/user/repo/contents")
    then ok_listing repo_root
    else if bool_decide (url = u "api/src")
    then ok_listing [entry "dir" "utils" "api/src/utils" ""]
    else if bool_decide (url = u "api/src/utils")
    then ok_listing [entry "file" "helper.py" "api/helper.py" "raw/helper.py"]
    else if bool_decide (url = u "api/empty") then ok_listing []
    else if bool_decide (url = u "api/broken") then status 500
    else if bool_decide (url = u "raw/main.py")
    then ok_text (u "print(1)" ++ [10%N])
    else if bool_decide (url = u "raw/helper.py") then ok_text (u "x = 1")
    else if bool_decide (url = u "raw/blank.txt")
    then ok_text [32; 10; 9; 0x3000]%N
    else status 404.

(** A listing endpoint that fails [n] times (a dropped connection, then
    error statuses) before it answers. *)
Definition flaky_server (n : nat) (l : list file_info)
  : nat -> request -> http_result :=
  fun i _ =>
    if (i <? n)%nat
    then (if (i =? 0)%nat then RequestException else status 503)
    else ok_listing l.

(** Listing endpoints that answer every request alike: with the listing but
    the status 201, with status 200 and a body that is no JSON (as requests
    2.27 and later, and as earlier versions, report it), and with status 200
    and a JSON object. *)
Definition created_server (l : list file_info)
  : nat -> request -> http_result :=
  fun _ _ => Response {| status_code := 201; text := [];
                         json := Decoded (JsonArray l) |}.

Definition garbled_server : nat -> request -> http_result :=
  fun _ _ => ok_text (u "<html>").

Definition legacy_garbled_server : nat -> request -> http_result :=
  fun _ _ => Response {| status_code := 200; text := u "<html>";
                         json := ValueError |}.

Definition object_server : nat -> request -> http_result :=
  fun _ _ => Response {| status_code := 200; text := u "{...}";
                         json := Decoded (JsonOther true) |}.

(** Only the paths of the files written and the directories made. *)
Definition saved_paths (evs : list event) : list str :=
  omap (fun ev => match ev with ESave p _ => Some p | _ => None end) evs.

Definition made_dirs (evs : list event) : list str :=
  omap (fun ev => match ev with EMakedirs p => Some p | _ => None end) evs.

Definition requested_urls (evs : list event) : list str :=
  omap (fun ev => match ev with EGet rq => Some (req_url rq) | _ => None end) evs.

(* ===================================================================== *)
(** ** Vocabulary of the statements                                       *)
(* ===================================================================== *)

Definition line_width (fnt : font) (line : str) : Z := (measure fnt line).1.
Definition line_height (fnt : font) (line : str) : Z := (measure fnt line).2.

(** The width of the widest line, and [0] when there is none or none is
    wider. *)
Definition widest (fnt : font) (lines : list str) : Z :=
  fold_left (fun m line => Z.max m (line_width fnt line)) lines 0%Z.

(** [k] requests for [rq] with a one-second pause between two of them. *)
Fixpoint attempts_trace (rq : request) (k : nat) : list event :=
  match k with
  | O => []
  | S O => [EGet rq]
  | S k' => EGet rq :: ESleep 1 :: attempts_trace rq k'
  end.

(** How the answer to its request ends one attempt of the retry loop: the
    loop returns the decoded body, an exception escapes from it, or the
    attempt has failed and the loop goes on. *)
Inductive attempt_end : Type :=
  | Returns (v : json_value)
  | Escapes
  | Fails.

Definition attempt_end_of (res : http_result) : attempt_end :=
  match res with
  | RequestException => Fails
  | Response r =>
      if (status_code r =? 200)%Z then
        match json r with
        | Decoded v => Returns v
        | JSONDecodeError => Fails
        | ValueError => Escapes
        end
      else Fails
  end.

(** The retry loop as the specification words it: a success status, which
    for HTTP is one of the class 2xx, ends the loop at that attempt, with a
    result other than the failure value. *)
Definition success_status (code : Z) : bool :=
  (200 <=? code)%Z && (code <? 300)%Z.

Definition succeeds_as_claimed (res : http_result) : bool :=
  match res with
  | Response r => success_status (status_code r)
  | RequestException => false
  end.

Definition stops_at_first_success_as_claimed {FS : Type}
    (answer : nat -> http_result)
    (run : outcome (option json_value) * world FS * list event) : Prop :=
  forall i : nat,
    (i < 3)%nat ->
    succeeds_as_claimed (answer i) = true ->
    (forall j : nat, (j < i)%nat -> succeeds_as_claimed (answer j) = false) ->
    length (requested_urls (events_of run)) = S i
    /\ outcome_of run <> Ok None.

(** [blank s]: every character of [s] is whitespace. *)
Definition blank (s : str) : bool := forallb isspace s.

(** The world after [k] more requests. *)
Definition after_requests {FS : Type} (k : nat) (w : world FS) : world FS :=
  {| clock := k + clock w; disk := disk w |}.

(** The listing URL [main] builds from the repository URL. *)
Definition api_url (repo_url : str) : str :=
  u "https://api.github.com/repos/"
  ++ replace repo_url (u "https://github.com/") (u "") ++ u "/contents".

(** A path component: a non-empty name without a slash. *)
Definition component (s : str) : Prop := s <> [] /\ 47%N ∉ s.

Definition is_component (s : str) : bool :=
  str_truthy s && forallb (fun c => negb (c =? 47)%N) s.





Definition touches_disk (ev : event) : bool :=
  match ev with EMakedirs _ | ESave _ _ => true | _ => false end.

(** [occurs old s]: [old] is a substring of [s]. *)
Definition occurs (old s : str) : Prop :=
  exists pre post, s = pre ++ old ++ post.

(** The relative path the walker has accumulated below a chain of directory
    names, from the empty path of [main]. *)
Definition rel_of (comps : list str) : str := fold_left os_path_join comps [].

(** Listings whose entries are named by path components, as the contents
    API names them. *)
Definition well_named (files : list file_info) : Prop :=
  Forall (fun f => component (fi_name f)) files.

Definition server_well_named (server : nat -> request -> http_result) : Prop :=
  forall n rq r l,
    server n rq = Response r -> json r = Decoded (JsonArray l) ->
    well_named l.

(** [beneath server token files dirs f]: the entry [f] is listed beneath the
    listing [files], below the chain of directories [dirs].  It is an entry
    of [files] itself ([dirs] is empty), or [files] has a directory entry,
    whose name heads [dirs], for whose URL the server answers some listing
    request made with the credential with status 200 and an array, beneath
    which [f] is listed below the rest of [dirs]. *)
Inductive beneath (server : nat -> request -> http_result)
    (token : option str) : list file_info -> list str -> file_info -> Prop :=
  | beneath_here (files : list file_info) (f : file_info) :
      f ∈ files -> beneath server token files [] f
  | beneath_dir (files : list file_info) (d : file_info) (n : nat)
      (r : response) (sub : list file_info) (dirs : list str)
      (f : file_info) :
      d ∈ files ->
      fi_type d = u "dir" ->
      server n {| req_url := fi_url d; req_headers := listing_headers token |}
      = Response r ->
      status_code r = 200%Z ->
      json r = Decoded (JsonArray sub) ->
      beneath server token sub dirs f ->
      beneath server token files (fi_name d :: dirs) f.

(** [f] is listed in the repository at [repo_url], below the directories
    [dirs]: beneath an array the server answers with for the listing URL of
    the repository. *)
Definition in_repository (server : nat -> request -> http_result)
    (token : option str) (repo_url : str) (dirs : list str) (f : file_info)
  : Prop :=
  exists (n : nat) (r : response) (root : list file_info),
    server n {| req_url := api_url repo_url;
                req_headers := listing_headers token |} = Response r
    /\ status_code r = 200%Z
    /\ json r = Decoded (JsonArray root)
    /\ beneath server token root dirs f.

(** [rendering_of server truetype load_default f img]: the canvas [img]
    renders the text the server answers with, with status 200, to some
    request for the content of the allow-listed file entry [f], a text with
    a character that is not whitespace. *)
Definition rendering_of (server : nat -> request -> http_result)
    (truetype : str -> Z -> option font) (load_default : font)
    (f : file_info) (img : image) : Prop :=
  fi_type f = u "file"
  /\ has_allowed_extension (fi_name f) = true
  /\ exists (n : nat) (r : response),
       server n {| req_url := fi_download_url f;
                   req_headers := download_headers |} = Response r
       /\ status_code r = 200%Z
       /\ blank (text r) = false
       /\ img = rendered_image truetype load_default (text r).

(** The images of a run on the listing [files] at the relative path [path]:
    each renders a file entry listed beneath [files], and is saved under the
    output root at [path], the directories down to the entry and the name of
    the entry with [.png], joined in this order. *)
Definition saves_listed (server : nat -> request -> http_result)
    (truetype : str -> Z -> option font) (load_default : font)
    (token : option str) (files : list file_info) (path : str) (ev : event)
  : Prop :=
  match ev with
  | ESave p img =>
      exists (dirs : list str) (f : file_info),
        beneath server token files dirs f
        /\ rendering_of server truetype load_default f img
        /\ p = os_path_join
                 (os_path_join OUTPUT_DIR (fold_left os_path_join dirs path))
                 (fi_name f ++ u ".png")
  | _ => True
  end.

(** What the walker relies on from the disk: a directory that was made
    exists, and what exists still does after a directory is made or an image
    saved. *)
Class LawfulFileSystem (FS : Type) `{FileSystem FS} : Prop := {
  makedirs_exists :
    forall d p d', makedirs d p = Some d' -> path_exists d' p = true;
  makedirs_keeps :
    forall d p d' q,
      makedirs d p = Some d' -> path_exists d q = true ->
      path_exists d' q = true;
  save_keeps :
    forall d p img d' q,
      save d p img = Some d' -> path_exists d q = true ->
      path_exists d' q = true
}.

(** The directories of a run are fresh and made once: no path is made
    twice, none existed at the start, what existed at the start exists at the
    end, and after a run that returned so do the directories it made. *)
Definition makes_fresh_dirs {FS : Type} `{FileSystem FS} {A : Type}
    (w : world FS) (r : outcome A * world FS * list event) : Prop :=
  NoDup (made_dirs (events_of r))
  /\ (forall p, p ∈ made_dirs (events_of r) ->
                path_exists (disk w) p = false)
  /\ (forall q, path_exists (disk w) q = true ->
                path_exists (disk (world_of r)) q = true)
  /\ (forall a, outcome_of r = Ok a ->
                forall p, p ∈ made_dirs (events_of r) ->
                          path_exists (disk (world_of r)) p = true).

(** The vertical positions of the painted lines. *)
Definition text_ys (img : image) : list pynum :=
  map (fun op => (op_xy op).2) (img_text img).

(* ===================================================================== *)
(** * Properties                                                          *)
(* ===================================================================== *)

(** ** Binary64 rounding *)

Module Float64Facts.
Import Float64.
Local Open Scope Q_scope.

Lemma two_pow_pos (n : Z) : 0 < 2 ^ n.
Proof. apply Qpower_0_lt. reflexivity. Qed.

Lemma two_pow_add (n m : Z) : 2 ^ (n + m) == 2 ^ n * 2 ^ m.
Proof. apply Qpower_plus. discriminate. Qed.

Lemma two_pow_succ (n : Z) : 2 ^ (n + 1) == 2 * 2 ^ n.
Proof. rewrite two_pow_add. change (2 ^ 1) with 2. ring. Qed.

Lemma two_pow_inject (n : Z) : (0 <= n)%Z -> inject_Z (2 ^ n) == 2 ^ n.
Proof. intros Hn. now rewrite Zpower_Qpower. Qed.

Lemma two_pow_le (n m : Z) : (n <= m)%Z -> 2 ^ n <= 2 ^ m.
Proof.
  intros Hnm. destruct (Z.eq_dec n m) as [->|Hne].
  - apply Qle_refl.
  - apply Qlt_le_weak, Qpower_lt_compat_l; [lia | reflexivity].
Qed.

Lemma ilog2_spec (x : Q) :
  0 < x -> 2 ^ ilog2 x <= x /\ x < 2 ^ (ilog2 x + 1).
Proof.
  intros Hx. destruct x as [p q].
  assert (Hp : (0 < p)%Z) by (unfold Qlt in Hx; simpl in Hx; lia).
  unfold ilog2. cbn [Qnum Qden].
  set (a := Z.log2 p). set (b := Z.log2 (Z.pos q)).
  destruct (Z.log2_spec p Hp) as [Ha1 Ha2].
  destruct (Z.log2_spec (Z.pos q) eq_refl) as [Hb1 Hb2].
  fold a in Ha1, Ha2. fold b in Hb1, Hb2.
  assert (Ha0 : (0 <= a)%Z) by apply Z.log2_nonneg.
  assert (Hb0 : (0 <= b)%Z) by apply Z.log2_nonneg.
  assert (Hxq : (p # q) * inject_Z (Z.pos q) == inject_Z p).
  { unfold Qeq, Qmult, inject_Z. simpl. lia. }
  assert (Hq : 0 < inject_Z (Z.pos q)) by (unfold Qlt; simpl; lia).
  assert (Ha1' : 2 ^ a <= inject_Z p).
  { rewrite <- two_pow_inject by lia. now rewrite <- Zle_Qle. }
  assert (Ha2' : inject_Z p < 2 * 2 ^ a).
  { rewrite <- two_pow_succ, <- two_pow_inject by lia.
    rewrite <- Zlt_Qlt. exact Ha2. }
  assert (Hb1' : 2 ^ b <= inject_Z (Z.pos q)).
  { rewrite <- two_pow_inject by lia. now rewrite <- Zle_Qle. }
  assert (Hb2' : inject_Z (Z.pos q) < 2 * 2 ^ b).
  { rewrite <- two_pow_succ, <- two_pow_inject by lia.
    rewrite <- Zlt_Qlt. exact Hb2. }
  assert (Hab : 2 ^ a == 2 ^ (a - b) * 2 ^ b).
  { rewrite <- two_pow_add. now replace (a - b + b)%Z with a by lia. }
  pose proof (two_pow_pos (a - b)) as Hd.
  pose proof (two_pow_pos b) as Hbp.
  set (X := p # q) in *. set (Q' := inject_Z (Z.pos q)) in *.
  set (P := inject_Z p) in *. set (D := 2 ^ (a - b)) in *.
  set (A := 2 ^ a) in *. set (B := 2 ^ b) in *.
  assert (Hhi : X < 2 * D).
  { destruct (Qlt_le_dec X (2 * D)) as [|Hge]; [assumption|exfalso].
    assert (2 * D * Q' <= X * Q') by nra. nra. }
  assert (Hlo : D < 2 * X).
  { destruct (Qlt_le_dec D (2 * X)) as [|Hge]; [assumption|exfalso].
    assert (2 * X * Q' <= D * Q') by nra. nra. }
  destruct (Qle_bool D X) eqn:Hc.
  - apply Qle_bool_iff in Hc. split; [exact Hc|].
    rewrite two_pow_succ. exact Hhi.
  - assert (Hlt : X < D).
    { apply Qnot_le_lt. intros Hle. apply Qle_bool_iff in Hle. congruence. }
    replace (a - b - 1 + 1)%Z with (a - b)%Z by lia.
    split; [|exact Hlt].
    assert (Hs : 2 ^ (a - b) == 2 * 2 ^ (a - b - 1)).
    { rewrite <- two_pow_succ. now replace (a - b - 1 + 1)%Z with (a - b)%Z by lia. }
    fold D in Hs. lra.
Qed.

Lemma ilog2_mono (x y : Q) : 0 < x -> x <= y -> (ilog2 x <= ilog2 y)%Z.
Proof.
  intros Hx Hxy.
  destruct (ilog2_spec x Hx) as [Hx1 _].
  destruct (ilog2_spec y) as [_ Hy2]; [lra|].
  destruct (Z_le_gt_dec (ilog2 x) (ilog2 y)) as [|Hgt]; [assumption|exfalso].
  pose proof (two_pow_le (ilog2 y + 1) (ilog2 x) ltac:(lia)). lra.
Qed.

Lemma rne_inject_Z (z : Z) : rne (inject_Z z) = z.
Proof.
  unfold rne. rewrite Qfloor_Z.
  destruct (Qcompare_spec (inject_Z z - inject_Z z) (1 # 2)) as [H|H|H];
    [exfalso; lra | reflexivity | exfalso; lra].
Qed.

Lemma rne_error (x : Q) :
  x - (1 # 2) <= inject_Z (rne x) /\ inject_Z (rne x) <= x + (1 # 2).
Proof.
  unfold rne. pose proof (Qfloor_le x) as Hlo. pose proof (Qlt_floor x) as Hhi.
  rewrite inject_Z_plus in Hhi. change (inject_Z 1) with 1 in Hhi.
  destruct (Qcompare_spec (x - inject_Z (Qfloor x)) (1 # 2)) as [H|H|H].
  - destruct (Z.even (Qfloor x));
      rewrite ?inject_Z_plus; change (inject_Z 1) with 1; lra.
  - lra.
  - rewrite inject_Z_plus. change (inject_Z 1) with 1. lra.
Qed.

Lemma rne_mono (x y : Q) : x <= y -> (rne x <= rne y)%Z.
Proof.
  intros Hxy. pose proof (Qfloor_resp_le x y Hxy) as Hf.
  pose proof (Qfloor_le x) as Hx1. pose proof (Qlt_floor x) as Hx2.
  pose proof (Qfloor_le y) as Hy1. pose proof (Qlt_floor y) as Hy2.
  unfold rne.
  destruct (Z.eq_dec (Qfloor x) (Qfloor y)) as [Heq|Hne].
  - rewrite <- Heq in *.
    destruct (Qcompare_spec (x - inject_Z (Qfloor x)) (1 # 2)) as [H|H|H];
      destruct (Qcompare_spec (y - inject_Z (Qfloor x)) (1 # 2)) as [H'|H'|H'];
      try destruct (Z.even (Qfloor x)); try lia; exfalso; lra.
  - assert (Hlt : (Qfloor x + 1 <= Qfloor y)%Z) by lia.
    destruct (Qcompare (x - inject_Z (Qfloor x)) (1 # 2));
      destruct (Qcompare (y - inject_Z (Qfloor y)) (1 # 2));
      try destruct (Z.even (Qfloor x)); try destruct (Z.even (Qfloor y)); lia.
Qed.

(** Everything about [rnd_pos x] follows from the position of [x] in its
    binade: with [e = ilog2 x] the scaled value [x * 2^(52-e)] lies in
    [[2^52, 2^53)]. *)
Section Binade.
Variable x : Q.
Hypothesis x_pos : 0 < x.

Let e := ilog2 x.
Let s := 2 ^ (prec - 1 - e).
Let t := 2 ^ (e - (prec - 1)).
Let r := rne (x * s).

Local Lemma s_pos : 0 < s.
Proof. apply two_pow_pos. Qed.

Local Lemma t_pos : 0 < t.
Proof. apply two_pow_pos. Qed.

Local Lemma st_one : s * t == 1.
Proof.
  unfold s, t. rewrite <- two_pow_add.
  now replace (prec - 1 - e + (e - (prec - 1)))%Z with 0%Z by lia.
Qed.

Local Lemma scaled_lo : inject_Z (2 ^ 52) <= x * s.
Proof.
  destruct (ilog2_spec x x_pos) as [H1 _]. fold e in H1.
  assert (H : 2 ^ e * s == inject_Z (2 ^ 52)).
  { unfold s. rewrite <- two_pow_add, two_pow_inject by lia.
    now replace (e + (prec - 1 - e))%Z with 52%Z by (unfold prec; lia). }
  pose proof s_pos. rewrite <- H. nra.
Qed.

Local Lemma scaled_hi : x * s < inject_Z (2 ^ 53).
Proof.
  destruct (ilog2_spec x x_pos) as [_ H2]. fold e in H2.
  assert (H : 2 ^ (e + 1) * s == inject_Z (2 ^ 53)).
  { unfold s. rewrite <- two_pow_add, two_pow_inject by lia.
    now replace (e + 1 + (prec - 1 - e))%Z with 53%Z by (unfold prec; lia). }
  pose proof s_pos. rewrite <- H. nra.
Qed.

Lemma rnd_pos_eq : rnd_pos x == inject_Z r * t.
Proof. unfold rnd_pos. now rewrite Qred_correct. Qed.

Lemma mantissa_range : (2 ^ 52 <= r <= 2 ^ 53)%Z.
Proof.
  split.
  - rewrite <- (rne_inject_Z (2 ^ 52)). apply rne_mono, scaled_lo.
  - rewrite <- (rne_inject_Z (2 ^ 53)). apply rne_mono, Qlt_le_weak, scaled_hi.
Qed.

Lemma rnd_pos_range : 2 ^ e <= rnd_pos x <= 2 ^ (e + 1).
Proof.
  rewrite rnd_pos_eq. destruct mantissa_range as [H1 H2].
  rewrite Zle_Qle in H1, H2. pose proof t_pos.
  assert (Hlo : inject_Z (2 ^ 52) * t == 2 ^ e).
  { unfold t. rewrite two_pow_inject, <- two_pow_add by lia.
    now replace (52 + (e - (prec - 1)))%Z with e by (unfold prec; lia). }
  assert (Hhi : inject_Z (2 ^ 53) * t == 2 ^ (e + 1)).
  { unfold t. rewrite two_pow_inject, <- two_pow_add by lia.
    now replace (53 + (e - (prec - 1)))%Z with (e + 1)%Z by (unfold prec; lia). }
  rewrite <- Hlo, <- Hhi. split; nra.
Qed.

Lemma rnd_pos_error : x - x * eps <= rnd_pos x /\ rnd_pos x <= x + x * eps.
Proof.
  rewrite rnd_pos_eq. destruct (rne_error (x * s)) as [H1 H2]. fold r in H1, H2.
  pose proof s_pos. pose proof t_pos. pose proof st_one as Hst.
  pose proof scaled_lo as Hlo.
  assert (Hx : x == x * s * t) by (rewrite <- Qmult_assoc, Hst; ring).
  assert (Hhalf : (1 # 2) * t <= x * eps).
  { assert (Hm : (1 # 2) <= x * s * eps).
    { apply Qle_trans with (inject_Z (2 ^ 52) * eps); [discriminate|].
      apply Qmult_le_compat_r; [exact Hlo | discriminate]. }
    assert (Heq : x * eps == x * s * eps * t).
    { transitivity (x * eps * (s * t)); [rewrite Hst|]; ring. }
    rewrite Heq. apply Qmult_le_compat_r; [exact Hm | lra]. }
  assert (Ha : (x * s - (1 # 2)) * t <= inject_Z r * t)
    by (apply Qmult_le_compat_r; lra).
  assert (Hb : inject_Z r * t <= (x * s + (1 # 2)) * t)
    by (apply Qmult_le_compat_r; lra).
  assert (Hc : (x * s - (1 # 2)) * t == x * s * t - (1 # 2) * t) by ring.
  assert (Hd : (x * s + (1 # 2)) * t == x * s * t + (1 # 2) * t) by ring.
  split; lra.
Qed.

(** A value whose scaled significand is already an integer is not changed. *)
Lemma rnd_pos_exact (k : Z) : x * s == inject_Z k -> rnd_pos x == x.
Proof.
  intros Hk. rewrite rnd_pos_eq. unfold r.
  assert (Hr : rne (x * s) = k).
  { pose proof (rne_mono (x * s) (inject_Z k)) as H1.
    pose proof (rne_mono (inject_Z k) (x * s)) as H2.
    rewrite rne_inject_Z in H1, H2.
    apply Z.le_antisymm; [apply H1 | apply H2]; lra. }
  rewrite Hr, <- Hk, <- Qmult_assoc, st_one. ring.
Qed.
End Binade.

Lemma rnd_of_pos (x : Q) : 0 < x -> rnd x = rnd_pos x.
Proof.
  destruct x as [[|p|p] q]; intros H; try reflexivity;
    unfold Qlt in H; simpl in H; lia.
Qed.

Lemma rnd_of_zero (x : Q) : x == 0 -> rnd x = 0.
Proof.
  destruct x as [[|p|p] q]; intros H; try reflexivity;
    unfold Qeq in H; simpl in H; lia.
Qed.

Lemma rnd_nonneg (x : Q) : 0 <= x -> 0 <= rnd x.
Proof.
  intros Hx. destruct (Qlt_le_dec 0 x) as [Hpos|Hle].
  - rewrite rnd_of_pos by assumption.
    destruct (rnd_pos_range x Hpos) as [H _].
    pose proof (two_pow_pos (ilog2 x)). lra.
  - rewrite rnd_of_zero by lra. apply Qle_refl.
Qed.

(** Rounding is monotone. *)
Lemma rnd_mono (x y : Q) : 0 <= x -> x <= y -> rnd x <= rnd y.
Proof.
  intros Hx Hxy. destruct (Qlt_le_dec 0 x) as [Hpos|Hle].
  - assert (Hy : 0 < y) by lra.
    rewrite !rnd_of_pos by assumption.
    pose proof (ilog2_mono x y Hpos Hxy) as He.
    destruct (Z.eq_dec (ilog2 x) (ilog2 y)) as [Heq|Hne].
    + rewrite !rnd_pos_eq, Heq by assumption.
      apply Qmult_le_compat_r; [|apply Qlt_le_weak, two_pow_pos].
      rewrite <- Zle_Qle. apply rne_mono.
      apply Qmult_le_compat_r; [assumption|apply Qlt_le_weak, two_pow_pos].
    + destruct (rnd_pos_range x Hpos) as [_ H1].
      destruct (rnd_pos_range y Hy) as [H2 _].
      pose proof (two_pow_le (ilog2 x + 1) (ilog2 y) ltac:(lia)). lra.
  - rewrite (rnd_of_zero x) by lra. apply rnd_nonneg. lra.
Qed.

(** Rounding depends on the value only, not on the fraction denoting it. *)
Lemma rnd_ext (x y : Q) : 0 <= x -> x == y -> rnd x == rnd y.
Proof.
  intros Hx Hxy. apply Qle_antisym; apply rnd_mono; lra.
Qed.

(** The relative error of one rounding is at most [eps]. *)
Lemma rnd_error (x : Q) :
  0 <= x -> x - x * eps <= rnd x /\ rnd x <= x + x * eps.
Proof.
  intros Hx. destruct (Qlt_le_dec 0 x) as [Hpos|Hle].
  - rewrite rnd_of_pos by assumption. now apply rnd_pos_error.
  - rewrite rnd_of_zero by lra. assert (x == 0) by lra. split; nra.
Qed.

Lemma Qred_inject_Z (z : Z) : Qred (inject_Z z) = inject_Z z.
Proof.
  unfold Qred, inject_Z. cbn [Qnum Qden].
  pose proof (Z.ggcd_gcd z 1) as Hg.
  pose proof (Z.ggcd_correct_divisors z 1) as Hd.
  destruct (Z.ggcd z 1) as [g [aa bb]]. cbn [fst snd] in *.
  rewrite Z.gcd_1_r in Hg. subst g. destruct Hd as [Ha Hb].
  f_equal; [lia|]. replace bb with 1%Z by lia. reflexivity.
Qed.

(** Integers below [2^53] are binary64 values. *)
Lemma rnd_inject_Z (z : Z) :
  (0 <= z < 2 ^ 53)%Z -> rnd (inject_Z z) = inject_Z z.
Proof.
  intros [Hz0 Hz1]. destruct (Z.eq_dec z 0%Z) as [->|Hnz]; [reflexivity|].
  assert (Hpos : 0 < inject_Z z) by (change 0 with (inject_Z 0); rewrite <- Zlt_Qlt; lia).
  rewrite rnd_of_pos by assumption.
  assert (He : (ilog2 (inject_Z z) <= 52)%Z).
  { destruct (ilog2_spec _ Hpos) as [H1 _].
    destruct (Z_le_gt_dec (ilog2 (inject_Z z)) 52) as [|Hgt]; [assumption|exfalso].
    pose proof (two_pow_le 53 (ilog2 (inject_Z z)) ltac:(lia)) as H53.
    rewrite <- two_pow_inject in H53 by lia.
    assert (inject_Z z < inject_Z (2 ^ 53)) by (rewrite <- Zlt_Qlt; lia). lra. }
  assert (Hq : rnd_pos (inject_Z z) == inject_Z z).
  { apply (rnd_pos_exact _ (z * 2 ^ (prec - 1 - ilog2 (inject_Z z)))%Z).
    rewrite inject_Z_mult, two_pow_inject by (unfold prec; lia). reflexivity. }
  unfold rnd_pos in *. rewrite Qred_correct in Hq.
  apply Qred_complete in Hq. rewrite Hq. apply Qred_inject_Z.
Qed.

(** [rnd] against the binary64 arithmetic of the kernel, on the operations
    of the height computation: the quotient [13 / 3], the sum with the line
    spacing, the product with the number of lines, and the conversion of an
    integer above [2^53]. *)
Example rnd_agrees_with_primitive_floats :
  Q_of_prim (prim_of_Z 13 / prim_of_Z 3)%float = Some (rnd (13 # 3))
  /\ Q_of_prim (prim_of_Z 13 / prim_of_Z 3 + prim_of_Z 5)%float
     = Some (rnd (rnd (13 # 3) + 5))
  /\ Q_of_prim ((prim_of_Z 13 / prim_of_Z 3 + prim_of_Z 5) * prim_of_Z 3)%float
     = Some (rnd (rnd (rnd (13 # 3) + 5) * 3))
  /\ Q_of_prim (prim_of_Z 1 / prim_of_Z 10)%float = Some (rnd (1 # 10))
  /\ Q_of_prim (prim_of_Z 7 / prim_of_Z 1000003)%float = Some (rnd (7 # 1000003))
  /\ Q_of_prim (prim_of_Z (2 ^ 53 + 1)) = Some (rnd (inject_Z (2 ^ 53 + 1)))
  /\ Q_of_prim (prim_of_Z (2 ^ 53 + 3)) = Some (rnd (inject_Z (2 ^ 53 + 3))).
Proof. vm_compute. repeat split. Qed.

End Float64Facts.

(** ** Arithmetic of the canvas height *)

Lemma py_sum_acc (l : list Z) (a : Z) :
  fold_left Z.add l a = (a + py_sum l)%Z.
Proof.
  unfold py_sum. revert a. induction l as [|x l IH]; intros a; simpl.
  - lia.
  - rewrite IH, (IH (0 + x)%Z). lia.
Qed.

Lemma py_sum_cons (x : Z) (l : list Z) : py_sum (x :: l) = (x + py_sum l)%Z.
Proof. unfold py_sum at 1. simpl. apply py_sum_acc. Qed.

Lemma py_sum_app (l1 l2 : list Z) :
  py_sum (l1 ++ l2) = (py_sum l1 + py_sum l2)%Z.
Proof.
  induction l1 as [|x l1 IH]; simpl.
  - reflexivity.
  - rewrite !py_sum_cons, IH. lia.
Qed.

Lemma py_sum_lower (l : list Z) (h : Z) :
  Forall (fun x => (h <= x)%Z) l -> (h * Z.of_nat (length l) <= py_sum l)%Z.
Proof.
  induction 1 as [|x l Hx _ IH].
  - simpl. unfold py_sum. simpl. lia.
  - rewrite py_sum_cons. simpl length. lia.
Qed.

(** [int(x)] of a float that is at least an integer [z >= 0] is at least
    [z]. *)
Lemma py_int_lower (q : Q) (z : Z) :
  (0 <= z)%Z -> (inject_Z z <= q)%Q -> (z <= py_int (PyFloat q))%Z.
Proof.
  intros Hz Hq. destruct q as [a b]. cbn [py_int Qnum Qden].
  assert (Hn : (0 <= a)%Z) by (unfold Qle in Hq; simpl in Hq; nia).
  rewrite Z.quot_div_nonneg by lia.
  change (a / Z.pos b)%Z with (Qfloor (a # b)).
  rewrite <- (Qfloor_Z z). now apply Qfloor_resp_le.
Qed.

Lemma py_int_upper (q : Q) (z : Z) :
  (0 <= q)%Q -> (q < inject_Z (z + 1))%Q -> (py_int (PyFloat q) <= z)%Z.
Proof.
  intros Hq0 Hq. destruct q as [a b]. cbn [py_int Qnum Qden].
  assert (Hn : (0 <= a)%Z) by (unfold Qle in Hq0; simpl in Hq0; lia).
  rewrite Z.quot_div_nonneg by lia.
  change (a / Z.pos b)%Z with (Qfloor (a # b)).
  pose proof (Qfloor_le (a # b)) as Hf.
  assert (Hlt : (inject_Z (Qfloor (a # b)) < inject_Z (z + 1))%Q) by lra.
  rewrite <- Zlt_Qlt in Hlt. lia.
Qed.

(** The height computation on a sum [S] of [n >= 1] measured heights, every
    one of them at least [h]: rounding is monotone and the integers involved
    are binary64 values, so the result cannot fall below [(h + spacing) * n]. *)
Lemma total_height_lower (S n h : Z) :
  (0 <= h)%Z -> (1 <= n)%Z -> (h * n <= S)%Z ->
  ((h + LINE_SPACING) * n < 2 ^ 53)%Z ->
  ((h + LINE_SPACING) * n
   <= py_int (py_mul (py_add (py_truediv S n) (PyInt LINE_SPACING))
                     (PyInt n)))%Z.
Proof.
  intros Hh Hn HS Hbig. unfold LINE_SPACING in *.
  unfold py_truediv, py_add, py_mul, to_float.
  assert (Hn53 : (n < 2 ^ 53)%Z) by nia.
  assert (Hh53 : (h + 5 < 2 ^ 53)%Z) by nia.
  rewrite (Float64Facts.rnd_inject_Z 5) by lia.
  rewrite (Float64Facts.rnd_inject_Z n) by lia.
  set (q := Float64.rnd (inject_Z S / inject_Z n)).
  set (x := Float64.rnd (q + inject_Z 5)).
  assert (Hnq : (0 < inject_Z n)%Q).
  { change 0%Q with (inject_Z 0). rewrite <- Zlt_Qlt. lia. }
  assert (Hhq : (0 <= inject_Z h)%Q).
  { change 0%Q with (inject_Z 0). rewrite <- Zle_Qle. lia. }
  assert (Hdiv : (inject_Z h <= inject_Z S / inject_Z n)%Q).
  { apply Qle_shift_div_l; [exact Hnq|].
    rewrite <- inject_Z_mult, <- Zle_Qle. lia. }
  assert (Hq : (inject_Z h <= q)%Q).
  { rewrite <- (Float64Facts.rnd_inject_Z h) by lia.
    apply Float64Facts.rnd_mono; assumption. }
  assert (Hx : (inject_Z (h + 5) <= x)%Q).
  { rewrite <- (Float64Facts.rnd_inject_Z (h + 5)) by lia.
    apply Float64Facts.rnd_mono.
    - change 0%Q with (inject_Z 0). rewrite <- Zle_Qle. lia.
    - rewrite inject_Z_plus. lra. }
  apply py_int_lower; [lia|].
  rewrite <- (Float64Facts.rnd_inject_Z ((h + 5) * n)) by lia.
  apply Float64Facts.rnd_mono.
  - change 0%Q with (inject_Z 0). rewrite <- Zle_Qle. lia.
  - rewrite inject_Z_mult. apply Qmult_le_compat_r; [exact Hx | lra].
Qed.

(** The same computation is the exact value [S + spacing * n] or one less:
    three roundings, each of relative error at most [2^-53], and then a
    truncation. *)
Lemma total_height_within_one (S n : Z) :
  (0 <= S)%Z -> (1 <= n)%Z -> (S + LINE_SPACING * n < 2 ^ 50)%Z ->
  let t := py_int (py_mul (py_add (py_truediv S n) (PyInt LINE_SPACING))
                          (PyInt n)) in
  (S + LINE_SPACING * n - 1 <= t <= S + LINE_SPACING * n)%Z.
Proof.
  intros HS Hn Hbig. unfold LINE_SPACING in *.
  unfold py_truediv, py_add, py_mul, to_float.
  rewrite (Float64Facts.rnd_inject_Z 5) by lia.
  rewrite (Float64Facts.rnd_inject_Z n) by lia.
  set (q0 := (inject_Z S / inject_Z n)%Q).
  set (q := Float64.rnd q0).
  set (x := Float64.rnd (q + inject_Z 5)).
  set (t := Float64.rnd (x * inject_Z n)).
  assert (Hnq : (1 <= inject_Z n)%Q).
  { change 1%Q with (inject_Z 1). rewrite <- Zle_Qle. lia. }
  assert (HSq : (0 <= inject_Z S)%Q).
  { change 0%Q with (inject_Z 0). rewrite <- Zle_Qle. lia. }
  assert (HE : (inject_Z S + 5 * inject_Z n <= inject_Z (2 ^ 50 - 1))%Q).
  { change 5%Q with (inject_Z 5).
    rewrite <- inject_Z_mult, <- inject_Z_plus, <- Zle_Qle. lia. }
  assert (Hq0n : (q0 * inject_Z n == inject_Z S)%Q).
  { unfold q0. field. lra. }
  assert (Hq0 : (0 <= q0)%Q).
  { unfold q0. apply Qle_shift_div_l; lra. }
  destruct (Float64Facts.rnd_error q0 Hq0) as [Hq1 Hq2]. fold q in Hq1, Hq2.
  assert (Hqpos : (0 <= q)%Q) by (apply Float64Facts.rnd_nonneg; exact Hq0).
  assert (Hy0 : (0 <= q + inject_Z 5)%Q).
  { change (inject_Z 5) with 5%Q. lra. }
  destruct (Float64Facts.rnd_error _ Hy0) as [Hx1 Hx2]. fold x in Hx1, Hx2.
  assert (Hxpos : (0 <= x)%Q) by (apply Float64Facts.rnd_nonneg; exact Hy0).
  assert (Hz0 : (0 <= x * inject_Z n)%Q) by nra.
  destruct (Float64Facts.rnd_error _ Hz0) as [Ht1 Ht2]. fold t in Ht1, Ht2.
  assert (Htpos : (0 <= t)%Q) by (apply Float64Facts.rnd_nonneg; exact Hz0).
  change (inject_Z 5) with 5%Q in *.
  unfold Float64.eps in *.
  set (e := (1 # 9007199254740992)%Q) in *.
  (* the three bounds, scaled by [n] *)
  assert (Hqn1 : (inject_Z S - inject_Z S * e <= q * inject_Z n)%Q).
  { assert ((q0 - q0 * e) * inject_Z n <= q * inject_Z n)%Q
      by (apply Qmult_le_compat_r; lra).
    assert ((q0 - q0 * e) * inject_Z n == q0 * inject_Z n - q0 * inject_Z n * e)%Q
      by ring. subst e. lra. }
  assert (Hqn2 : (q * inject_Z n <= inject_Z S + inject_Z S * e)%Q).
  { assert (q * inject_Z n <= (q0 + q0 * e) * inject_Z n)%Q
      by (apply Qmult_le_compat_r; lra).
    assert ((q0 + q0 * e) * inject_Z n == q0 * inject_Z n + q0 * inject_Z n * e)%Q
      by ring. subst e. lra. }
  assert (Hxn1 : ((q * inject_Z n + 5 * inject_Z n)
                  - (q * inject_Z n + 5 * inject_Z n) * e <= x * inject_Z n)%Q).
  { assert ((q + 5 - (q + 5) * e) * inject_Z n <= x * inject_Z n)%Q
      by (apply Qmult_le_compat_r; lra).
    assert ((q + 5 - (q + 5) * e) * inject_Z n
            == (q * inject_Z n + 5 * inject_Z n)
               - (q * inject_Z n + 5 * inject_Z n) * e)%Q by ring. subst e. lra. }
  assert (Hxn2 : (x * inject_Z n <= (q * inject_Z n + 5 * inject_Z n)
                  + (q * inject_Z n + 5 * inject_Z n) * e)%Q).
  { assert (x * inject_Z n <= (q + 5 + (q + 5) * e) * inject_Z n)%Q
      by (apply Qmult_le_compat_r; lra).
    assert ((q + 5 + (q + 5) * e) * inject_Z n
            == (q * inject_Z n + 5 * inject_Z n)
               + (q * inject_Z n + 5 * inject_Z n) * e)%Q by ring. subst e. lra. }
  set (Sq := inject_Z S) in *. set (nq := inject_Z n) in *.
  set (qn := (q * nq)%Q) in *. set (xn := (x * nq)%Q) in *.
  change (inject_Z (2 ^ 50 - 1)) with (1125899906842623 # 1)%Q in HE.
  split.
  - apply py_int_lower; [lia|].
    replace (S + 5 * n - 1)%Z with (S + 5 * n + -1)%Z by lia.
    rewrite inject_Z_plus, inject_Z_plus, inject_Z_mult.
    fold Sq nq. change (inject_Z 5) with 5%Q.
    change (inject_Z (-1)) with (-1 # 1)%Q.
    subst e. lra.
  - apply py_int_upper; [exact Htpos|].
    rewrite inject_Z_plus, inject_Z_plus, inject_Z_mult.
    fold Sq nq. change (inject_Z 5) with 5%Q. change (inject_Z 1) with 1%Q.
    subst e. lra.
Qed.

(** ** Strings and paths *)

Example splitlines_examples :
  splitlines (u "") = []
  /\ splitlines (u "abc") = [u "abc"]
  /\ splitlines [97; 98; 99; 10]%N = [u "abc"]
  /\ splitlines [97; 10; 10]%N = [u "a"; []]
  /\ splitlines [10]%N = [[]]
  /\ splitlines [97; 13; 10; 98]%N = [u "a"; u "b"]
  /\ splitlines [97; 10; 13; 98]%N = [u "a"; []; u "b"]
  /\ splitlines [97; 13; 13; 10; 98]%N = [u "a"; []; u "b"]
  /\ splitlines [97; 13]%N = [u "a"].
Proof. vm_compute. repeat split. Qed.

Example os_path_join_examples :
  os_path_join (u "screenshots") (u "") = u "screenshots/"
  /\ os_path_join (u "screenshots/") (u "a.png") = u "screenshots/a.png"
  /\ os_path_join (u "") (u "src") = u "src"
  /\ os_path_join (u "src") (u "utils") = u "src/utils"
  /\ os_path_join (u "src") (u "/x") = u "/x"
  /\ os_path_join (u "screenshots") (u "src/utils") = u "screenshots/src/utils".
Proof. vm_compute. repeat split. Qed.

Example replace_examples :
  replace (u "https://github.com/user/repo") (u "https://github.com/") (u "")
  = u "user/repo"
  /\ replace (u "abcabc") (u "bc") (u "X") = u "aXaX"
  /\ replace (u "aaa") (u "aa") (u "b") = u "ba".
Proof. vm_compute. repeat split. Qed.

Lemma lstrip_nil_iff (s : str) : lstrip s = [] <-> blank s = true.
Proof.
  unfold blank. induction s as [|c s IH]; simpl.
  - tauto.
  - destruct (isspace c); simpl; [exact IH|]. split; discriminate.
Qed.

Lemma lstrip_snoc_nonspace (s : str) (c : N) :
  isspace c = false -> lstrip (s ++ [c]) <> [].
Proof.
  intros Hc. induction s as [|d s IH]; simpl.
  - now rewrite Hc.
  - destruct (isspace d); [exact IH | discriminate].
Qed.

Lemma lstrip_head (s : str) (c : N) (rest : str) :
  lstrip s = c :: rest -> isspace c = false.
Proof.
  induction s as [|d s IH]; simpl; [discriminate|].
  destruct (isspace d) eqn:Hd; [exact IH|].
  intros [= <- _]. exact Hd.
Qed.

(** [s.strip()] is true exactly when [s] has a character that is not
    whitespace. *)
Lemma strip_truthy (s : str) : str_truthy (strip s) = negb (blank s).
Proof.
  unfold strip, rstrip. destruct (lstrip s) as [|c rest] eqn:E.
  - apply lstrip_nil_iff in E. now rewrite E.
  - assert (Hb : blank s = false).
    { destruct (blank s) eqn:Hb; [|reflexivity].
      apply lstrip_nil_iff in Hb. congruence. }
    rewrite Hb. cbn [negb].
    pose proof (lstrip_head _ _ _ E) as Hc.
    destruct (rev (c :: rest)) as [|d l] eqn:Hrev using rev_ind.
    { apply (f_equal (@length N)) in Hrev.
      rewrite length_rev in Hrev. discriminate. }
    clear IHl.
    assert (Hd : d = c).
    { apply (f_equal (@rev N)) in Hrev.
      rewrite rev_involutive, rev_app_distr in Hrev. simpl in Hrev.
      now injection Hrev. }
    subst d. pose proof (lstrip_snoc_nonspace l c Hc) as Hne.
    destruct (lstrip (l ++ [c])) as [|x xs] eqn:Hl; [congruence|].
    destruct (rev (x :: xs)) eqn:Hr; [|reflexivity].
    apply (f_equal (@length N)) in Hr. rewrite length_rev in Hr. discriminate.
Qed.

Lemma not_blank_has_nonspace (s : str) :
  blank s = false -> exists c, c ∈ s /\ isspace c = false.
Proof.
  unfold blank. induction s as [|c s IH]; simpl; [discriminate|].
  destruct (isspace c) eqn:Hc; simpl.
  - intros Hs. destruct (IH Hs) as [x [Hx Hsp]].
    exists x. split; [now right | exact Hsp].
  - intros _. exists c. split; [now left | exact Hc].
Qed.

(** Only the empty text has no line. *)
Lemma splitlines_from_some (l : str) (s : str) :
  splitlines_from (Some l) false s <> [].
Proof.
  revert l. induction s as [|c s IH]; intros l; simpl; [discriminate|].
  destruct (is_linebreak c); [discriminate | apply IH].
Qed.

Lemma splitlines_nil_iff (s : str) : splitlines s = [] <-> s = [].
Proof.
  split; [|now intros ->].
  unfold splitlines. destruct s as [|c s]; [reflexivity|]. simpl.
  destruct (is_linebreak c); [discriminate|].
  intros Hs. now apply splitlines_from_some in Hs.
Qed.

Lemma is_component_correct (s : str) : is_component s = true -> component s.
Proof.
  unfold is_component, component. intros Hs.
  apply andb_true_iff in Hs as [Hne Hall]. split.
  - now destruct s.
  - rewrite forallb_forall in Hall. intros Hin.
    apply list_elem_of_In, Hall in Hin. discriminate Hin.
Qed.

Lemma startswith_slash (s : str) :
  startswith s (u "/") = true -> exists rest, s = 47%N :: rest.
Proof.
  unfold startswith. intros Hs. apply bool_decide_eq_true in Hs.
  destruct s as [|c rest]; [discriminate|]. cbn in Hs.
  injection Hs as ->. eauto.
Qed.

Lemma endswith_slash (s : str) :
  endswith s (u "/") = true -> exists front, s = front ++ [47%N].
Proof.
  unfold endswith. intros Hs. apply bool_decide_eq_true in Hs.
  exists (take (length s - 1) s).
  change (length (u "/")) with 1%nat in Hs.
  change (u "/") with [47%N] in Hs.
  rewrite <- Hs. now rewrite take_drop.
Qed.

Lemma no_slash_startswith (s : str) : 47%N ∉ s -> startswith s (u "/") = false.
Proof.
  intros Hs. destruct (startswith s (u "/")) eqn:E; [|reflexivity].
  apply startswith_slash in E as [rest ->]. exfalso. apply Hs. now left.
Qed.

Lemma last_not_slash_endswith (s : str) (c : N) :
  c <> 47%N -> endswith (s ++ [c]) (u "/") = false.
Proof.
  intros Hc. destruct (endswith (s ++ [c]) (u "/")) eqn:E; [|reflexivity].
  apply endswith_slash in E as [front E].
  apply app_inj_tail in E as [_ E]. congruence.
Qed.

(** A component has a last character, and it is not a slash. *)
Lemma component_snoc (s : str) :
  component s -> exists front c, s = front ++ [c] /\ c <> 47%N.
Proof.
  intros [Hne Hs]. destruct s as [|x s] using rev_ind; [congruence|].
  exists s, x. split; [reflexivity|]. intros ->. apply Hs.
  apply elem_of_app. right. now left.
Qed.

(** Joining a directory that does not end with a slash and a name that does
    not start with one puts exactly one slash between them. *)
Lemma os_path_join_plain (a b : str) :
  a <> [] -> endswith a (u "/") = false -> startswith b (u "/") = false ->
  os_path_join a b = a ++ u "/" ++ b.
Proof.
  intros Ha He Hb. unfold os_path_join. rewrite Hb, He.
  destruct a; [congruence | reflexivity].
Qed.

Lemma os_path_join_empty (b : str) :
  startswith b (u "/") = false -> os_path_join [] b = b.
Proof. intros Hb. unfold os_path_join. now rewrite Hb. Qed.

(** The relative path the walker accumulates over a chain of directory
    names, starting from [acc]. *)
Lemma fold_join_components (comps : list str) (acc : str) :
  acc <> [] -> endswith acc (u "/") = false ->
  Forall component comps ->
  fold_left os_path_join comps acc
  = acc ++ concat (map (fun c => u "/" ++ c) comps)
  /\ endswith (fold_left os_path_join comps acc) (u "/") = false
  /\ fold_left os_path_join comps acc <> [].
Proof.
  intros Hne He Hall. revert acc Hne He.
  induction Hall as [|c comps Hc _ IH]; intros acc Hne He.
  - cbn. rewrite app_nil_r. auto.
  - cbn [fold_left map concat].
    assert (Hj : os_path_join acc c = acc ++ u "/" ++ c).
    { apply os_path_join_plain; auto.
      apply no_slash_startswith, Hc. }
    rewrite Hj.
    destruct (component_snoc c Hc) as [front [x [-> Hx]]].
    assert (Hne' : acc ++ u "/" ++ front ++ [x] <> [])
      by (destruct acc; [congruence | discriminate]).
    assert (He' : endswith (acc ++ u "/" ++ front ++ [x]) (u "/") = false).
    { replace (acc ++ u "/" ++ front ++ [x])
        with ((acc ++ u "/" ++ front) ++ [x])
        by (now rewrite <- !app_assoc).
      now apply last_not_slash_endswith. }
    destruct (IH _ Hne' He') as [E1 [E2 E3]].
    split; [|split; [exact E2 | exact E3]].
    rewrite E1. now rewrite <- !app_assoc.
Qed.

Lemma endswith_snoc (s : str) (c : N) :
  endswith (s ++ [c]) (u "/") = bool_decide (c = 47%N).
Proof.
  unfold endswith. change (length (u "/")) with 1%nat.
  rewrite length_app. cbn [length].
  replace (length s + 1 - 1)%nat with (length s) by lia.
  rewrite drop_app_length. apply bool_decide_ext.
  change (u "/") with [47%N]. split; congruence.
Qed.

Lemma endswith_app (a s : str) :
  s <> [] -> endswith (a ++ s) (u "/") = endswith s (u "/").
Proof.
  intros Hs. destruct s as [|x s] using rev_ind; [congruence|].
  now rewrite app_assoc, !endswith_snoc.
Qed.

Lemma component_head (s : str) :
  component s -> exists x rest, s = x :: rest /\ x <> 47%N.
Proof.
  intros [Hne Hs]. destruct s as [|x rest]; [congruence|].
  exists x, rest. split; [reflexivity|]. intros ->. apply Hs. now left.
Qed.

Lemma startswith_cons (x : N) (s : str) :
  x <> 47%N -> startswith (x :: s) (u "/") = false.
Proof.
  intros Hx. unfold startswith. apply bool_decide_eq_false.
  change (u "/") with [47%N]. cbn [length take]. intros [= E]. congruence.
Qed.

(** The destination of an image below a chain of directories, in full: the
    output root, the directory names and the file name, each followed by one
    slash, and the [.png] suffix. *)
Lemma destination_path (c : str) (comps : list str) (name : str) :
  Forall component (c :: comps) ->
  component name ->
  fold_left os_path_join (c :: comps) (u "")
  = c ++ concat (map (fun x => u "/" ++ x) comps)
  /\ os_path_join
       (os_path_join OUTPUT_DIR (fold_left os_path_join (c :: comps) (u "")))
       (name ++ u ".png")
     = u "screenshots/" ++ c ++ concat (map (fun x => u "/" ++ x) comps)
       ++ u "/" ++ name ++ u ".png".
Proof.
  intros Hall Hname. apply Forall_cons in Hall as [Hc Hcomps].
  destruct (component_head c Hc) as [x [c' [-> Hx]]].
  destruct (component_snoc _ Hc) as [front [y [Hfront Hy]]].
  cbn [fold_left]. change (u "") with (@nil N).
  rewrite os_path_join_empty by (now apply startswith_cons).
  assert (He : endswith (x :: c') (u "/") = false).
  { rewrite Hfront. now apply last_not_slash_endswith. }
  destruct (fold_join_components comps (x :: c') ltac:(discriminate) He Hcomps)
    as [E1 [E2 E3]].
  split; [exact E1|].
  rewrite E1 in *. set (rest := concat _) in *.
  assert (Hj1 : os_path_join OUTPUT_DIR ((x :: c') ++ rest)
                = OUTPUT_DIR ++ u "/" ++ (x :: c') ++ rest).
  { apply os_path_join_plain; [discriminate | reflexivity |].
    now apply startswith_cons. }
  rewrite Hj1.
  destruct (component_head name Hname) as [z [name' [-> Hz]]].
  rewrite os_path_join_plain.
  - unfold OUTPUT_DIR. rewrite <- !app_assoc. reflexivity.
  - discriminate.
  - rewrite (app_assoc OUTPUT_DIR), endswith_app; [exact E2 | discriminate].
  - now apply startswith_cons.
Qed.

(** ** The rasterizer *)

Section RasterizerFacts.
Context {FS : Type} `{FileSystem FS}.
Variable truetype : str -> Z -> option font.
Variable load_default : font.

Local Open Scope Z_scope.

Lemma measure_lines_spec (fnt : font) (lines : list str) (mw : Z) (hs : list Z) :
  measure_lines fnt lines mw hs
  = (fold_left (fun m line => Z.max m (line_width fnt line)) lines mw,
     hs ++ map (line_height fnt) lines).
Proof.
  revert mw hs. induction lines as [|line rest IH]; intros mw hs; simpl.
  - now rewrite app_nil_r.
  - destruct (measure fnt line) as [w h] eqn:E.
    rewrite IH, <- app_assoc. simpl.
    assert (Hw : line_width fnt line = w) by (unfold line_width; now rewrite E).
    assert (Hh : line_height fnt line = h) by (unfold line_height; now rewrite E).
    rewrite Hw, Hh. f_equal. f_equal.
    destruct (Z.gtb_spec w mw); lia.
Qed.

Lemma fold_max_lower (fnt : font) (lines : list str) (m : Z) :
  m <= fold_left (fun m line => Z.max m (line_width fnt line)) lines m.
Proof.
  revert m. induction lines as [|line rest IH]; intros m; simpl.
  - lia.
  - specialize (IH (Z.max m (line_width fnt line))). lia.
Qed.

Lemma draw_lines_size (fnt : font) (avg : pynum) (lines : list str)
    (y : pynum) (img : image) :
  img_size (draw_lines fnt avg lines y img) = img_size img.
Proof.
  revert y img. induction lines as [|line rest IH]; intros y img; simpl.
  - reflexivity.
  - now rewrite IH.
Qed.

(** The size of the canvas, as the source computes it. *)
Lemma rendered_image_size (content : str) :
  let fnt := load_font truetype load_default in
  let lines := splitlines content in
  img_size (rendered_image truetype load_default content)
  = (widest fnt lines + PADDING * 2,
     total_height (avg_line_height (map (line_height fnt) lines)) lines
     + PADDING * 2).
Proof.
  intros fnt lines. unfold rendered_image. fold fnt. fold lines.
  rewrite measure_lines_spec. simpl app.
  rewrite draw_lines_size. reflexivity.
Qed.

Lemma measured_heights_length (fnt : font) (lines : list str) :
  length (map (line_height fnt) lines) = length lines.
Proof. apply length_map. Qed.

Lemma avg_line_height_nonempty (hs : list Z) :
  hs <> [] ->
  avg_line_height hs = py_truediv (py_sum hs) (Z.of_nat (length hs)).
Proof. destruct hs; [congruence | reflexivity]. Qed.

(** C1 (amended).  For every text with at least one line the canvas is at
    least [2 * PADDING] wide, and, when every line measures at least [h >= 0]
    pixels in height, at least [2 * PADDING + lines * (h + LINE_SPACING)]
    high.  The bound with the nominal font size is the case [h = FONT_SIZE]:
    it needs a face that measures no line below the nominal size. *)
Theorem C1_canvas_lower_bound (content : str) (h : Z) :
  (1 <= length (splitlines content))%nat ->
  0 <= h ->
  Forall (fun line => h <= line_height (load_font truetype load_default) line)
         (splitlines content) ->
  (h + LINE_SPACING) * Z.of_nat (length (splitlines content)) < 2 ^ 53 ->
  2 * PADDING <= (img_size (rendered_image truetype load_default content)).1
  /\ 2 * PADDING
     + Z.of_nat (length (splitlines content)) * (h + LINE_SPACING)
     <= (img_size (rendered_image truetype load_default content)).2.
Proof.
  intros Hlen Hh Hall Hbig. rewrite rendered_image_size. cbn [fst snd].
  set (fnt := load_font truetype load_default) in *.
  set (lines := splitlines content) in *.
  split.
  - pose proof (fold_max_lower fnt lines 0). unfold widest. lia.
  - unfold total_height.
    rewrite avg_line_height_nonempty
      by (destruct lines; [simpl in Hlen; lia | discriminate]).
    rewrite measured_heights_length.
    pose proof (total_height_lower
                  (py_sum (map (line_height fnt) lines))
                  (Z.of_nat (length lines)) h Hh ltac:(lia)) as Hlow.
    assert (Hsum : h * Z.of_nat (length lines)
                   <= py_sum (map (line_height fnt) lines)).
    { rewrite <- (measured_heights_length fnt lines).
      apply py_sum_lower. rewrite Forall_map. exact Hall. }
    specialize (Hlow Hsum Hbig). lia.
Qed.

(** X15.  The canvas is the exact size of the formula up to the final [int(...)]:
    the width is the widest line plus the padding on both sides, and the
    height is the sum of the measured heights plus the spacing of every line
    plus the padding, or one pixel less. *)
Theorem canvas_size_up_to_truncation (content : str) :
  (1 <= length (splitlines content))%nat ->
  Forall (fun line => 0 <= line_height (load_font truetype load_default) line)
         (splitlines content) ->
  py_sum (map (line_height (load_font truetype load_default))
              (splitlines content))
  + LINE_SPACING * Z.of_nat (length (splitlines content)) < 2 ^ 50 ->
  (img_size (rendered_image truetype load_default content)).1
  = widest (load_font truetype load_default) (splitlines content)
    + 2 * PADDING
  /\ py_sum (map (line_height (load_font truetype load_default))
                 (splitlines content))
     + LINE_SPACING * Z.of_nat (length (splitlines content)) + 2 * PADDING - 1
     <= (img_size (rendered_image truetype load_default content)).2
     <= py_sum (map (line_height (load_font truetype load_default))
                    (splitlines content))
        + LINE_SPACING * Z.of_nat (length (splitlines content)) + 2 * PADDING.
Proof.
  intros Hlen Hall Hbig. rewrite rendered_image_size. cbn [fst snd].
  set (fnt := load_font truetype load_default) in *.
  set (lines := splitlines content) in *.
  split; [lia|].
  unfold total_height.
  rewrite avg_line_height_nonempty
    by (destruct lines; [simpl in Hlen; lia | discriminate]).
  rewrite measured_heights_length.
  assert (Hsum : 0 <= py_sum (map (line_height fnt) lines)).
  { pose proof (py_sum_lower (map (line_height fnt) lines) 0) as Hs.
    rewrite Forall_map in Hs. specialize (Hs Hall). lia. }
  pose proof (total_height_within_one
                (py_sum (map (line_height fnt) lines))
                (Z.of_nat (length lines)) Hsum ltac:(lia) Hbig) as Hone.
  cbv zeta in Hone. lia.
Qed.

(** C7.  A text with no line: the average line height is the nominal font
    size, the canvas is exactly [2 * PADDING] by [2 * PADDING], nothing is
    painted on it, and it is handed to [image.save] at the destination path,
    which writes it whenever the disk accepts the write. *)
Theorem C7_zero_lines (content output_path : str) (w : world FS) :
  splitlines content = [] ->
  avg_line_height
    (measure_lines (load_font truetype load_default) (splitlines content) 0 []).2
  = PyInt FONT_SIZE
  /\ img_size (rendered_image truetype load_default content)
     = (2 * PADDING, 2 * PADDING)
  /\ img_text (rendered_image truetype load_default content) = []
  /\ events_of (create_image_from_text truetype load_default content output_path w)
     = [ESave output_path (rendered_image truetype load_default content)]
  /\ (forall d,
        save (disk w) output_path (rendered_image truetype load_default content)
        = Some d ->
        outcome_of (create_image_from_text truetype load_default content output_path w)
        = Ok tt
        /\ disk (world_of (create_image_from_text truetype load_default content
                             output_path w)) = d).
Proof.
  intros Hlines.
  assert (Himg : rendered_image truetype load_default content
                 = {| img_mode := u "RGB";
                      img_size := (2 * PADDING, 2 * PADDING);
                      img_color := u "white"; img_text := [] |})
    by (unfold rendered_image; rewrite Hlines; reflexivity).
  split; [rewrite Hlines; reflexivity|].
  split; [rewrite Himg; reflexivity|].
  split; [rewrite Himg; reflexivity|].
  unfold create_image_from_text, image_save, events_of, outcome_of, world_of.
  split.
  - destruct (save _ _ _); reflexivity.
  - intros d Hd. rewrite Hd. split; reflexivity.
Qed.

End RasterizerFacts.

(** ** The tree walker *)

Section WalkerFacts.
Context {FS : Type} `{FileSystem FS}.
Variable server : nat -> request -> http_result.
Variable truetype : str -> Z -> option font.
Variable load_default : font.

Local Open Scope Z_scope.

(** *** The retry loop *)

(** [attempt_end_of] in terms of the answer. *)
Lemma attempt_end_of_spec (res : http_result) :
  (forall v, attempt_end_of res = Returns v
             <-> exists r, res = Response r /\ status_code r = 200
                           /\ json r = Decoded v)
  /\ (attempt_end_of res = Escapes
      <-> exists r, res = Response r /\ status_code r = 200
                    /\ json r = ValueError)
  /\ (attempt_end_of res = Fails
      <-> res = RequestException
          \/ exists r, res = Response r
                       /\ (status_code r <> 200 \/ json r = JSONDecodeError)).
Proof.
  destruct res as [|r]; cbn [attempt_end_of].
  - split; [|split].
    + intros v. split; [discriminate|]. intros (r & Hr & _). discriminate Hr.
    + split; [discriminate|]. intros (r & Hr & _). discriminate Hr.
    + split; auto.
  - destruct (Z.eqb_spec (status_code r) 200) as [Hst|Hst];
      [destruct (json r) as [| |v0] eqn:Hj|].
    all: split; [intros v; split | split; split].
    all: try discriminate.
    all: try (intros (r' & [= <-] & Hst' & Hj'); congruence).
    all: try (intros [Hr|(r' & [= <-] & [Hne|Hj'])]; congruence).
    all: try (intros _; right; exists r; auto; fail).
    all: try (intros _; exists r; auto; fail).
    all: try (intros [= <-]; exists r; auto; fail).
    all: reflexivity.
Qed.

(** One turn of the loop. *)
Lemma fetch_attempts_cons (url : str) (h : gmap str str) (retries attempt : Z)
    (rest : list Z) (w : world FS) :
  fetch_attempts server url h retries (attempt :: rest) w
  = let rq := {| req_url := url; req_headers := h |} in
    match attempt_end_of (server (clock w) rq) with
    | Returns v => (Ok (Some v), after_requests 1 w, [EGet rq])
    | Escapes => (Raised, after_requests 1 w, [EGet rq])
    | Fails =>
        let '(o, w2, ev2) :=
          fetch_attempts server url h retries rest (after_requests 1 w) in
        (o, w2,
         EGet rq :: (if attempt <? retries - 1 then [ESleep 1] else []) ++ ev2)
    end.
Proof.
  cbn [fetch_attempts]. cbv zeta. unfold bind at 1. unfold requests_get at 1.
  unfold after_requests. cbn [Nat.add].
  destruct (server (clock w) _) as [|r]; cbn [attempt_end_of].
  2: destruct (status_code r =? 200); [destruct (json r); try reflexivity|].
  all: unfold bind, time_sleep, ret;
    destruct (attempt <? retries - 1);
    destruct (fetch_attempts _ _ _ _ _ _) as [[o w2] ev2]; reflexivity.
Qed.

Lemma attempts_trace_succ (rq : request) (k : nat) :
  (1 <= k)%nat ->
  attempts_trace rq (S k) = EGet rq :: ESleep 1 :: attempts_trace rq k.
Proof. destruct k; [lia | reflexivity]. Qed.

Lemma attempts_trace_events (rq : request) (k : nat) :
  Forall (fun ev => ev = EGet rq \/ ev = ESleep 1) (attempts_trace rq k).
Proof.
  induction k as [|k IH]; [constructor|].
  destruct k as [|k]; [repeat constructor; now left|].
  rewrite attempts_trace_succ by lia.
  constructor; [now left|]. constructor; [now right | exact IH].
Qed.

(** The loop from attempt [i] on, with [m] attempts left: it sends [k]
    requests, of which all but the last have failed, and ends with the
    failure value after [m] failed attempts, with the body its last answer
    decodes to, or with the exception that escapes from its last attempt. *)
Lemma fetch_attempts_from (url : str) (h : gmap str str) (retries : Z)
    (m : nat) :
  forall (i : nat) (w : world FS),
    (i + m)%nat = Z.to_nat retries ->
    let rq := {| req_url := url; req_headers := h |} in
    let run := fetch_attempts server url h retries (map Z.of_nat (seq i m)) w in
    exists k : nat,
      (k <= m)%nat
      /\ events_of run = attempts_trace rq k
      /\ world_of run = after_requests k w
      /\ (forall j, (j < k - 1)%nat ->
            attempt_end_of (server (j + clock w)%nat rq) = Fails)
      /\ ((outcome_of run = Ok None
           /\ k = m
           /\ forall j, (j < m)%nat ->
                attempt_end_of (server (j + clock w)%nat rq) = Fails)
          \/ ((1 <= k)%nat
              /\ exists v,
                   outcome_of run = Ok (Some v)
                   /\ attempt_end_of (server (k - 1 + clock w)%nat rq)
                      = Returns v)
          \/ ((1 <= k)%nat
              /\ outcome_of run = Raised
              /\ attempt_end_of (server (k - 1 + clock w)%nat rq) = Escapes)).
Proof.
  cbv zeta. set (rq := {| req_url := url; req_headers := h |}).
  induction m as [|m IH]; intros i w Him.
  - exists 0%nat. split; [lia|]. split; [reflexivity|].
    split; [now destruct w|]. split; [intros j Hj; lia|]. left.
    split; [reflexivity|]. split; [reflexivity|]. intros j Hj. lia.
  - cbn [seq map]. rewrite fetch_attempts_cons. cbv zeta. fold rq.
    destruct (attempt_end_of (server (clock w) rq)) as [v| |] eqn:Hend.
    + exists 1%nat. split; [lia|]. split; [reflexivity|].
      split; [reflexivity|]. split; [intros j Hj; lia|].
      right. left. split; [lia|]. exists v. split; [reflexivity|exact Hend].
    + exists 1%nat. split; [lia|]. split; [reflexivity|].
      split; [reflexivity|]. split; [intros j Hj; lia|].
      right. right. split; [lia|]. split; [reflexivity|exact Hend].
    + destruct (IH (S i) (after_requests 1 w) ltac:(lia))
        as (k & Hk & Hev & Hw & Hbefore & Hcase).
      destruct (fetch_attempts _ _ _ _ _ _) as [[o w2] ev2].
      unfold events_of, world_of, outcome_of in *. cbn [fst snd] in *.
      assert (Hpause : (Z.of_nat i <? retries - 1) = negb (m =? 0)%nat).
      { assert (retries = Z.of_nat (i + S m)) by lia. subst retries.
        destruct (Nat.eqb_spec m 0); cbn [negb];
          [apply Z.ltb_ge | apply Z.ltb_lt]; lia. }
      rewrite Hpause.
      assert (Hshift : forall j,
                 server (j + clock (after_requests 1 w))%nat rq
                 = server (S j + clock w)%nat rq).
      { intros j. cbn. f_equal. lia. }
      assert (Hworld : after_requests k (after_requests 1 w)
                       = after_requests (S k) w).
      { unfold after_requests. cbn. f_equal. lia. }
      assert (Hfails : forall j, (j < S k - 1)%nat ->
                attempt_end_of (server (j + clock w)%nat rq) = Fails).
      { intros [|j] Hj; [exact Hend|]. rewrite <- Hshift. apply Hbefore. lia. }
      exists (S k). split; [lia|].
      destruct Hcase as [(Ho & -> & Hfail)
                        | [(Hk1 & v & Ho & Hret) | (Hk1 & Ho & Hesc)]].
      * split; [|split; [congruence|split; [exact Hfails|]]].
        -- destruct m as [|m]; cbn [Nat.eqb negb app].
           ++ subst ev2. reflexivity.
           ++ rewrite attempts_trace_succ by lia. now subst ev2.
        -- left. split; [exact Ho|]. split; [reflexivity|].
           intros [|j] Hj; [exact Hend|].
           rewrite <- Hshift. apply Hfail. lia.
      * split; [|split; [congruence|split; [exact Hfails|]]].
        -- destruct m as [|m]; [lia|]. cbn [Nat.eqb negb app].
           rewrite attempts_trace_succ by lia. now subst ev2.
        -- right. left. split; [lia|]. exists v. split; [exact Ho|].
           replace (S k - 1)%nat with (S (k - 1)) by lia.
           now rewrite <- Hshift.
      * split; [|split; [congruence|split; [exact Hfails|]]].
        -- destruct m as [|m]; [lia|]. cbn [Nat.eqb negb app].
           rewrite attempts_trace_succ by lia. now subst ev2.
        -- right. right. split; [lia|]. split; [exact Ho|].
           replace (S k - 1)%nat with (S (k - 1)) by lia.
           now rewrite <- Hshift.
Qed.

(** For any number of retries the loop returns or lets an exception escape,
    leaves the disk alone, and does nothing but send its request and sleep
    one second. *)
Lemma get_files_inv (url : str) (token : option str) (retries : Z)
    (w : world FS) :
  ((exists v, outcome_of (get_files_from_github server url token retries w)
              = Ok v)
   \/ outcome_of (get_files_from_github server url token retries w) = Raised)
  /\ disk (world_of (get_files_from_github server url token retries w)) = disk w
  /\ Forall (fun ev => ev = EGet {| req_url := url;
                                    req_headers := listing_headers token |}
                       \/ ev = ESleep 1)
            (events_of (get_files_from_github server url token retries w)).
Proof.
  unfold get_files_from_github, py_range.
  destruct (fetch_attempts_from url (listing_headers token) retries
              (Z.to_nat retries) 0 w eq_refl)
    as (k & _ & Hev & Hw & _ & Hcase).
  rewrite Hev, Hw. split; [|split; [reflexivity | apply attempts_trace_events]].
  destruct Hcase as [(Ho & _) | [(_ & v & Ho & _) | (_ & Ho & _)]]; eauto.
Qed.

(** A body the loop returns is one the server sent with status 200. *)
Lemma get_files_returns (url : str) (token : option str) (retries : Z)
    (w : world FS) (v : json_value) :
  outcome_of (get_files_from_github server url token retries w) = Ok (Some v) ->
  exists (n : nat) (r : response),
    server n {| req_url := url; req_headers := listing_headers token |}
    = Response r
    /\ status_code r = 200 /\ json r = Decoded v.
Proof.
  unfold get_files_from_github, py_range. intros Hout.
  destruct (fetch_attempts_from url (listing_headers token) retries
              (Z.to_nat retries) 0 w eq_refl)
    as (k & _ & _ & _ & _ & Hcase).
  destruct Hcase as [(Ho & _) | [(_ & v' & Ho & Hret) | (_ & Ho & _)]];
    try congruence.
  rewrite Hout in Ho. injection Ho as <-.
  apply attempt_end_of_spec in Hret as (r & Hr & Hst & Hj). eauto.
Qed.

(** An exception escapes from the loop only when the decoding of a body sent
    with status 200 raises one that is no [RequestException]. *)
Lemma get_files_raises (url : str) (token : option str) (retries : Z)
    (w : world FS) :
  outcome_of (get_files_from_github server url token retries w) = Raised ->
  exists (n : nat) (r : response),
    server n {| req_url := url; req_headers := listing_headers token |}
    = Response r
    /\ status_code r = 200 /\ json r = ValueError.
Proof.
  unfold get_files_from_github, py_range. intros Hout.
  destruct (fetch_attempts_from url (listing_headers token) retries
              (Z.to_nat retries) 0 w eq_refl)
    as (k & _ & _ & _ & _ & Hcase).
  destruct Hcase as [(Ho & _) | [(_ & v' & Ho & _) | (_ & _ & Hesc)]];
    try congruence.
  apply attempt_end_of_spec in Hesc as (r & Hr & Hst & Hj). eauto.
Qed.

(** The first thing the loop does, with the default of three attempts, is to
    send its request. *)
Lemma get_files_first_request (url : str) (token : option str) (w : world FS) :
  exists evs,
    events_of (get_files_from_github server url token MAX_RETRIES w)
    = EGet {| req_url := url; req_headers := listing_headers token |} :: evs.
Proof.
  unfold get_files_from_github, MAX_RETRIES.
  change (py_range 3) with [0; 1; 2]. rewrite fetch_attempts_cons. cbv zeta.
  destruct (attempt_end_of _); [eexists; reflexivity..|].
  destruct (fetch_attempts _ _ _ _ _ _) as [[o w2] ev2].
  eexists; reflexivity.
Qed.

(** What [process_file_info] does with a directory entry: fetch, then recurse
    on a non-empty listing. *)
Lemma process_dir_entry
    (recurse : list file_info -> option str -> str -> M FS unit)
    (d : file_info) (token : option str) (path : str) (w : world FS) :
  fi_type d = u "dir" ->
  process_file_info server truetype load_default recurse d token path w
  = bind (get_files_from_github server (fi_url d) token MAX_RETRIES)
         (fun sub_files =>
            match sub_files with
            | Some (JsonArray ((_ :: _) as listing)) =>
                recurse listing token (os_path_join path (fi_name d))
            | Some (JsonOther true) => raise
            | _ => ret tt
            end) w.
Proof.
  intros Hd. unfold process_file_info. rewrite Hd.
  replace (bool_decide (u "dir" = u "file")) with false by reflexivity.
  replace (bool_decide (u "dir" = u "dir")) with true by reflexivity.
  reflexivity.
Qed.

(** C4 (amended).  With the default bound the listing fetch sends between one
    and three requests for the same URL and sleeps one second between two
    consecutive ones, and not after the last.  It stops at the first attempt
    whose answer has the status 200 and a body that decodes, and returns the
    decoded body without asking again.  An attempt fails, and the next one
    follows, on an exception of the HTTP client, on any status other than
    200, and on a body with status 200 whose decoding raises a
    [RequestException]; a decoding that raises another exception lets it
    escape, at that attempt.  After three failed attempts the fetch returns
    [None]; [main] and the directory case of [process_files] then do nothing
    more. *)
Theorem C4_listing_fetch_retries (url : str) (token : option str)
    (w : world FS) :
  let rq := {| req_url := url; req_headers := listing_headers token |} in
  let answer (i : nat) := server (i + clock w)%nat rq in
  let run := get_files_from_github server url token MAX_RETRIES w in
  (exists k : nat,
      (1 <= k <= 3)%nat
      /\ events_of run = attempts_trace rq k
      /\ world_of run = after_requests k w)
  /\ (forall (i : nat) (r : response) (v : json_value),
        (i < 3)%nat ->
        answer i = Response r ->
        status_code r = 200 ->
        json r = Decoded v ->
        (forall j : nat, (j < i)%nat -> attempt_end_of (answer j) = Fails) ->
        outcome_of run = Ok (Some v)
        /\ events_of run = attempts_trace rq (S i))
  /\ (forall (i : nat) (r : response),
        (i < 3)%nat ->
        answer i = Response r ->
        status_code r = 200 ->
        json r = ValueError ->
        (forall j : nat, (j < i)%nat -> attempt_end_of (answer j) = Fails) ->
        outcome_of run = Raised
        /\ events_of run = attempts_trace rq (S i))
  /\ ((forall i : nat, (i < 3)%nat -> attempt_end_of (answer i) = Fails) ->
      run = (Ok None, after_requests 3 w, attempts_trace rq 3))
  /\ (forall res : http_result,
        attempt_end_of res = Fails
        <-> res = RequestException
            \/ exists r, res = Response r
                         /\ (status_code r <> 200
                             \/ json r = JSONDecodeError))
  /\ (forall (fuel : nat) (repo_url : str),
        url = api_url repo_url ->
        outcome_of run = Ok None ->
        main server truetype load_default fuel repo_url token w
        = (Ok tt, world_of run, events_of run))
  /\ (forall (recurse : list file_info -> option str -> str -> M FS unit)
             (d : file_info) (path : str),
        fi_type d = u "dir" ->
        fi_url d = url ->
        outcome_of run = Ok None ->
        process_file_info server truetype load_default recurse d token path w
        = (Ok tt, world_of run, events_of run)).
Proof.
  intros rq answer run.
  assert (E : run
    = match attempt_end_of (answer 0%nat) with
      | Returns v => (Ok (Some v), after_requests 1 w, attempts_trace rq 1)
      | Escapes => (Raised, after_requests 1 w, attempts_trace rq 1)
      | Fails =>
          match attempt_end_of (answer 1%nat) with
          | Returns v => (Ok (Some v), after_requests 2 w, attempts_trace rq 2)
          | Escapes => (Raised, after_requests 2 w, attempts_trace rq 2)
          | Fails =>
              match attempt_end_of (answer 2%nat) with
              | Returns v =>
                  (Ok (Some v), after_requests 3 w, attempts_trace rq 3)
              | Escapes => (Raised, after_requests 3 w, attempts_trace rq 3)
              | Fails => (Ok None, after_requests 3 w, attempts_trace rq 3)
              end
          end
      end).
  { unfold run, get_files_from_github, MAX_RETRIES.
    change (py_range 3) with [0; 1; 2].
    set (h := listing_headers token) in *.
    rewrite fetch_attempts_cons. cbv zeta. fold rq.
    change (server (clock w) rq) with (answer 0%nat).
    destruct (attempt_end_of (answer 0%nat)); [reflexivity..|].
    rewrite fetch_attempts_cons. cbv zeta. fold rq.
    change (server (clock (after_requests 1 w)) rq) with (answer 1%nat).
    destruct (attempt_end_of (answer 1%nat)); [reflexivity..|].
    rewrite fetch_attempts_cons. cbv zeta. fold rq.
    change (server (clock (after_requests 1 (after_requests 1 w))) rq)
      with (answer 2%nat).
    destruct (attempt_end_of (answer 2%nat)); reflexivity. }
  split; [|split; [|split; [|split; [|split; [|split]]]]].
  - rewrite E.
    destruct (attempt_end_of (answer 0%nat));
      [exists 1%nat; repeat split; lia..|].
    destruct (attempt_end_of (answer 1%nat));
      [exists 2%nat; repeat split; lia..|].
    exists 3%nat.
    destruct (attempt_end_of (answer 2%nat)); repeat split; lia.
  - intros i r v Hi Hr Hst Hj Hbefore.
    assert (Hend : attempt_end_of (answer i) = Returns v).
    { apply attempt_end_of_spec. eauto. }
    rewrite E. destruct i as [|[|[|i]]]; [| | |lia].
    + rewrite Hend. split; reflexivity.
    + rewrite (Hbefore 0%nat) by lia. rewrite Hend. split; reflexivity.
    + rewrite (Hbefore 0%nat), (Hbefore 1%nat) by lia. rewrite Hend.
      split; reflexivity.
  - intros i r Hi Hr Hst Hj Hbefore.
    assert (Hend : attempt_end_of (answer i) = Escapes).
    { apply attempt_end_of_spec. eauto. }
    rewrite E. destruct i as [|[|[|i]]]; [| | |lia].
    + rewrite Hend. split; reflexivity.
    + rewrite (Hbefore 0%nat) by lia. rewrite Hend. split; reflexivity.
    + rewrite (Hbefore 0%nat), (Hbefore 1%nat) by lia. rewrite Hend.
      split; reflexivity.
  - intros Hfail.
    rewrite E, (Hfail 0%nat), (Hfail 1%nat), (Hfail 2%nat) by lia. reflexivity.
  - intros res. apply attempt_end_of_spec.
  - intros fuel repo_url Hurl Hnone. clear E. unfold main. cbv zeta.
    fold (api_url repo_url). rewrite <- Hurl. unfold bind. fold run.
    destruct run as [[o w1] ev1]. unfold outcome_of in Hnone. cbn in Hnone.
    subst o. cbn. now rewrite app_nil_r.
  - intros recurse d path Hd Hdurl Hnone. clear E.
    rewrite process_dir_entry by exact Hd. rewrite Hdurl. unfold bind.
    fold run. destruct run as [[o w1] ev1].
    unfold outcome_of in Hnone. cbn in Hnone.
    subst o. cbn. now rewrite app_nil_r.
Qed.

(** *** One entry of a listing *)

(** An entry that is neither an allow-listed file nor a directory is passed
    over. *)
Lemma process_other_entry
    (recurse : list file_info -> option str -> str -> M FS unit)
    (f : file_info) (token : option str) (path : str) (w : world FS) :
  bool_decide (fi_type f = u "file") && has_allowed_extension (fi_name f)
  = false ->
  fi_type f <> u "dir" ->
  process_file_info server truetype load_default recurse f token path w
  = (Ok tt, w, []).
Proof.
  intros Hfile Hdir. unfold process_file_info. rewrite Hfile.
  rewrite bool_decide_eq_false_2 by exact Hdir. reflexivity.
Qed.

(** An allow-listed file entry, case by case. *)
Lemma process_file_entry
    (recurse : list file_info -> option str -> str -> M FS unit)
    (f : file_info) (token : option str) (path : str) (w : world FS) :
  fi_type f = u "file" ->
  has_allowed_extension (fi_name f) = true ->
  process_file_info server truetype load_default recurse f token path w
  = let rq := {| req_url := fi_download_url f;
                 req_headers := download_headers |} in
    let w1 := after_requests 1 w in
    match server (clock w) rq with
    | RequestException => (Raised, w1, [EGet rq])
    | Response r =>
        if (status_code r =? 200) && negb (blank (text r)) then
          let dir := os_path_join OUTPUT_DIR path in
          let out := os_path_join dir (fi_name f ++ u ".png") in
          let img := rendered_image truetype load_default (text r) in
          if path_exists (disk w) dir then
            match save (disk w) out img with
            | Some d =>
                (Ok tt, {| clock := S (clock w); disk := d |},
                 [EGet rq; ESave out img])
            | None => (Raised, w1, [EGet rq; ESave out img])
            end
          else
            match makedirs (disk w) dir with
            | Some d1 =>
                match save d1 out img with
                | Some d2 =>
                    (Ok tt, {| clock := S (clock w); disk := d2 |},
                     [EGet rq; EMakedirs dir; ESave out img])
                | None =>
                    (Raised, {| clock := S (clock w); disk := d1 |},
                     [EGet rq; EMakedirs dir; ESave out img])
                end
            | None => (Raised, w1, [EGet rq; EMakedirs dir])
            end
        else (Ok tt, w1, [EGet rq])
    end.
Proof.
  intros Hfile Hext. unfold process_file_info. rewrite Hfile, Hext.
  replace (bool_decide (u "file" = u "file")) with true by reflexivity.
  cbn [andb]. cbv zeta. unfold bind at 1. unfold requests_get at 1.
  unfold after_requests. cbn [Nat.add].
  destruct (server (clock w) _) as [|r]; [reflexivity|].
  destruct (status_code r =? 200); [|reflexivity]. cbn [andb].
  rewrite strip_truthy. destruct (blank (text r)); [reflexivity|].
  cbn [negb].
  unfold bind, os_path_exists, os_makedirs, create_image_from_text,
    image_save, ret.
  cbn -[os_path_join rendered_image u download_headers OUTPUT_DIR].
  destruct (path_exists (disk w) _);
    cbn -[os_path_join rendered_image u download_headers OUTPUT_DIR].
  - destruct (save (disk w) _ _); reflexivity.
  - destruct (makedirs (disk w) _) as [d1|]; [|reflexivity].
    cbn -[os_path_join rendered_image u download_headers OUTPUT_DIR].
    destruct (save d1 _ _); reflexivity.
Qed.

(** *** Events of a composite run *)

Lemma bind_events {A B : Type} (m : M FS A) (k : A -> M FS B) (w : world FS)
    (P : event -> Prop) :
  Forall P (events_of (m w)) ->
  (forall a w1, Forall P (events_of (k a w1))) ->
  Forall P (events_of (bind m k w)).
Proof.
  intros Hm Hk. unfold bind, events_of in *.
  destruct (m w) as [[[a| |] w1] ev1]; cbn [snd] in *; try exact Hm.
  specialize (Hk a w1). destruct (k a w1) as [[o2 w2] ev2]. cbn [snd] in *.
  apply Forall_app. now split.
Qed.


Lemma bind_events_on {A B : Type} (m : M FS A) (k : A -> M FS B)
    (w : world FS) (P : event -> Prop) :
  Forall P (events_of (m w)) ->
  (forall a, outcome_of (m w) = Ok a ->
             Forall P (events_of (k a (world_of (m w))))) ->
  Forall P (events_of (bind m k w)).
Proof.
  intros Hm Hk. unfold bind, events_of, outcome_of, world_of in *.
  destruct (m w) as [[[a| |] w1] ev1]; cbn [fst snd] in *; try exact Hm.
  specialize (Hk a eq_refl). destruct (k a w1) as [[o2 w2] ev2].
  cbn [snd] in *. apply Forall_app. now split.
Qed.

Lemma for_each_events_in {A : Type} (l : list A) (body : A -> M FS unit)
    (P : event -> Prop) :
  Forall (fun x => forall w, Forall P (events_of (body x w))) l ->
  forall w, Forall P (events_of (for_each l body w)).
Proof.
  induction 1 as [|x rest Hx _ IH]; intros w.
  - constructor.
  - cbn [for_each]. apply bind_events; [apply Hx | intros _ w1; apply IH].
Qed.



Lemma bind_ext {A B : Type} (m : M FS A) (k1 k2 : A -> M FS B)
    (w : world FS) :
  (forall a w1, k1 a w1 = k2 a w1) -> bind m k1 w = bind m k2 w.
Proof.
  intros Hk. unfold bind. destruct (m w) as [[[a| |] w1] ev1]; try reflexivity.
  now rewrite Hk.
Qed.

(** As [bind_ext], where the continuations need only agree on the value and
    world that [m] hands over. *)
Lemma bind_ext_on {A B : Type} (m : M FS A) (k1 k2 : A -> M FS B)
    (w : world FS) :
  (forall a w1,
      outcome_of (m w) = Ok a /\ w1 = world_of (m w) -> k1 a w1 = k2 a w1) ->
  bind m k1 w = bind m k2 w.
Proof.
  intros Hk. unfold bind, outcome_of, world_of in *.
  destruct (m w) as [[[a| |] w1] ev1]; try reflexivity.
  now rewrite (Hk a w1).
Qed.

Lemma bind_assoc {A B C : Type} (m : M FS A) (k1 : A -> M FS B)
    (k2 : B -> M FS C) (w : world FS) :
  bind (bind m k1) k2 w = bind m (fun a => bind (k1 a) k2) w.
Proof.
  unfold bind. destruct (m w) as [[[a| |] w1] ev1]; try reflexivity.
  destruct (k1 a w1) as [[[b| |] w2] ev2]; try reflexivity.
  destruct (k2 b w2) as [[o3 w3] ev3]. now rewrite app_assoc.
Qed.

Lemma bind_ret_l {A B : Type} (a : A) (k : A -> M FS B) (w : world FS) :
  bind (ret a) k w = k a w.
Proof. unfold bind, ret. now destruct (k a w) as [[o w2] ev2]. Qed.

Lemma for_each_app {A : Type} (l1 l2 : list A) (body : A -> M FS unit)
    (w : world FS) :
  for_each (l1 ++ l2) body w
  = bind (for_each l1 body) (fun _ => for_each l2 body) w.
Proof.
  revert w. induction l1 as [|x l1 IH]; intros w.
  - cbn [app for_each]. now rewrite bind_ret_l.
  - cbn [app for_each]. rewrite bind_assoc. apply bind_ext.
    intros _ w1. apply IH.
Qed.

(** Closes [Forall P evs] for an explicit list [evs] whose members are
    among the hypotheses. *)
Ltac all_expected :=
  unfold events_of; cbn [snd];
  repeat first [apply List.Forall_nil | apply List.Forall_cons; [assumption|]].


(** *** The depth bound *)

Lemma bind_outcome_not_fuel {A B : Type} (m : M FS A) (k : A -> M FS B)
    (w : world FS) :
  outcome_of (bind m k w) <> OutOfFuel ->
  outcome_of (m w) <> OutOfFuel
  /\ forall a, outcome_of (m w) = Ok a ->
               outcome_of (k a (world_of (m w))) <> OutOfFuel.
Proof.
  unfold bind, outcome_of, world_of.
  destruct (m w) as [[[a| |] w1] ev1]; cbn [fst snd]; intros Hb.
  - split; [discriminate|]. intros a' [= <-].
    destruct (k a w1) as [[o2 w2] ev2]. exact Hb.
  - split; [discriminate | discriminate].
  - congruence.
Qed.

(** A run that ends within its depth bound is the run with any larger
    bound: the bound only cuts runs short, it changes none. *)
Lemma process_files_more_fuel (n : nat) :
  forall (files : list file_info) (token : option str) (path : str)
         (w : world FS),
    outcome_of (process_files server truetype load_default n files token
                  path w) <> OutOfFuel ->
    process_files server truetype load_default (S n) files token path w
    = process_files server truetype load_default n files token path w.
Proof.
  induction n as [|n IH]; intros files token path w Hout.
  { exfalso. apply Hout. reflexivity. }
  change (for_each files
            (fun f => process_file_info server truetype load_default
                        (process_files server truetype load_default (S n))
                        f token path) w
          = for_each files
              (fun f => process_file_info server truetype load_default
                          (process_files server truetype load_default n)
                          f token path) w).
  change (outcome_of
            (for_each files
               (fun f => process_file_info server truetype load_default
                           (process_files server truetype load_default n)
                           f token path) w) <> OutOfFuel) in Hout.
  revert w Hout. induction files as [|f rest IHfiles]; intros w Hout.
  - reflexivity.
  - cbn [for_each] in *.
    apply bind_outcome_not_fuel in Hout as [Hf Hrest].
    assert (Hbody :
      process_file_info server truetype load_default
        (process_files server truetype load_default (S n)) f token path w
      = process_file_info server truetype load_default
          (process_files server truetype load_default n) f token path w).
    { destruct (decide (fi_type f = u "dir")) as [Hd|Hd].
      - rewrite !process_dir_entry in * by exact Hd.
        apply bind_ext_on. intros sub w1 Hw1.
        destruct sub as [[[|x xs]|[|]]|]; try reflexivity.
        apply IH.
        apply bind_outcome_not_fuel in Hf as [_ Hf].
        destruct Hw1 as [Ho ->]. exact (Hf _ Ho).
      - unfold process_file_info.
        rewrite (bool_decide_eq_false_2 _ Hd). reflexivity. }
    unfold bind at 1 2. rewrite Hbody.
    destruct (process_file_info _ _ _ _ _ _ _ w) as [[[[]| |] w1] ev1] eqn:E;
      try reflexivity.
    rewrite IHfiles; [reflexivity|].
    specialize (Hrest tt). unfold outcome_of, world_of in Hrest.
    cbn [fst snd] in Hrest. now apply Hrest.
Qed.

(** *** Request headers *)





(** *** File entries *)

(** C5.  For a file entry whose downloaded content is empty or all
    whitespace, processing the entry returns without touching the disk: no
    directory is made and no image is saved.  Conversely a directory is made
    or an image saved for a file entry only after a download with status 200
    whose text has a character that is not whitespace. *)
Theorem C5_blank_content_no_image
    (recurse : list file_info -> option str -> str -> M FS unit)
    (f : file_info) (token : option str) (path : str) (w : world FS) :
  fi_type f = u "file" ->
  (forall r : response,
      server (clock w) {| req_url := fi_download_url f;
                          req_headers := download_headers |} = Response r ->
      blank (text r) = true ->
      outcome_of (process_file_info server truetype load_default recurse f
                    token path w) = Ok tt
      /\ disk (world_of (process_file_info server truetype load_default
                           recurse f token path w)) = disk w
      /\ Forall (fun ev => touches_disk ev = false)
                (events_of (process_file_info server truetype load_default
                              recurse f token path w)))
  /\ (forall ev : event,
        ev ∈ events_of (process_file_info server truetype load_default
                          recurse f token path w) ->
        touches_disk ev = true ->
        exists r : response,
          server (clock w) {| req_url := fi_download_url f;
                              req_headers := download_headers |} = Response r
          /\ status_code r = 200
          /\ exists c, c ∈ text r /\ isspace c = false).
Proof.
  intros Hty.
  destruct (has_allowed_extension (fi_name f)) eqn:Hext.
  - rewrite process_file_entry by assumption. cbv zeta. split.
    + intros r Hr Hblank. rewrite Hr, Hblank, andb_false_r.
      unfold outcome_of, world_of, events_of. cbn.
      repeat split. repeat constructor.
    + intros ev Hin Hdisk.
      destruct (server (clock w) _) as [|r].
      { apply list_elem_of_singleton in Hin. subst ev. discriminate. }
      destruct (status_code r =? 200) eqn:Hst; cbn [andb] in Hin.
      2: { apply list_elem_of_singleton in Hin. subst ev. discriminate. }
      destruct (blank (text r)) eqn:Hb; cbn [negb] in Hin.
      { apply list_elem_of_singleton in Hin. subst ev. discriminate. }
      exists r. split; [reflexivity|]. split; [lia|].
      now apply not_blank_has_nonspace.
  - assert (Hskip : process_file_info server truetype load_default recurse f
                      token path w = (Ok tt, w, [])).
    { apply process_other_entry.
      - now rewrite Hext, andb_false_r.
      - rewrite Hty. intros E. apply (f_equal (@length N)) in E.
        discriminate E. }
    rewrite Hskip. split.
    + intros r _ _. repeat split. constructor.
    + intros ev Hin. now apply elem_of_nil in Hin.
Qed.

(** C6.  A file entry whose name ends with no extension of the allow-list is
    passed over: processing it sends no request and leaves the world as it
    was, and a listing is processed exactly as the same listing without the
    entry. *)
Theorem C6_unlisted_extension_skipped (f : file_info) :
  fi_type f = u "file" ->
  has_allowed_extension (fi_name f) = false ->
  (forall (recurse : list file_info -> option str -> str -> M FS unit)
          (token : option str) (path : str) (w : world FS),
      process_file_info server truetype load_default recurse f token path w
      = (Ok tt, w, []))
  /\ (forall (fuel : nat) (before after : list file_info)
             (token : option str) (path : str) (w : world FS),
        process_files server truetype load_default fuel
          (before ++ f :: after) token path w
        = process_files server truetype load_default fuel
            (before ++ after) token path w).
Proof.
  intros Hty Hext.
  assert (Hskip : forall recurse token path w,
             process_file_info server truetype load_default recurse f token
               path w = (Ok tt, w, [])).
  { intros recurse token path w. apply process_other_entry.
    - now rewrite Hext, andb_false_r.
    - rewrite Hty. intros E. apply (f_equal (@length N)) in E.
      discriminate E. }
  split; [exact Hskip|].
  intros [|n] before after token path w; [reflexivity|].
  cbn [process_files]. rewrite !for_each_app. apply bind_ext.
  intros _ w1. cbn [for_each]. unfold bind at 1. rewrite Hskip.
  now destruct (for_each after _ w1) as [[o w2] ev2].
Qed.

(** *** Directory entries *)

(** C10.  For a directory entry the walker recurses into the sub-listing
    exactly when the fetch returns a non-empty list.  When the fetch returns
    the empty list the entry is handled as when the fetch fails: nothing
    follows the fetch, whatever the recursive call would do, and no directory
    or image is written.  The fetch itself returns, unless the decoding of a
    body sent with status 200 raises an exception that is no
    [RequestException], which then ends the processing of the entry; a
    returned value that is no list is passed over when it is falsy and makes
    [process_files] raise when it is truthy. *)
Theorem C10_recursion_iff_nonempty (fuel : nat) (d : file_info)
    (token : option str) (path : str) (w : world FS) :
  fi_type d = u "dir" ->
  ((exists sub_files,
       outcome_of (get_files_from_github server (fi_url d) token MAX_RETRIES w)
       = Ok sub_files)
   \/ (outcome_of (get_files_from_github server (fi_url d) token MAX_RETRIES w)
       = Raised
       /\ exists (n : nat) (r : response),
            server n {| req_url := fi_url d;
                        req_headers := listing_headers token |} = Response r
            /\ status_code r = 200 /\ json r = ValueError))
  /\ (forall x xs,
        outcome_of (get_files_from_github server (fi_url d) token MAX_RETRIES w)
        = Ok (Some (JsonArray (x :: xs))) ->
        process_file_info server truetype load_default
          (process_files server truetype load_default fuel) d token path w
        = let '(o, w2, ev2) :=
            process_files server truetype load_default fuel (x :: xs) token
              (os_path_join path (fi_name d))
              (world_of (get_files_from_github server (fi_url d) token
                           MAX_RETRIES w)) in
          (o, w2,
           events_of (get_files_from_github server (fi_url d) token
                        MAX_RETRIES w) ++ ev2))
  /\ (forall recurse : list file_info -> option str -> str -> M FS unit,
        outcome_of (get_files_from_github server (fi_url d) token MAX_RETRIES w)
        = Ok (Some (JsonArray []))
        \/ outcome_of (get_files_from_github server (fi_url d) token
                         MAX_RETRIES w) = Ok None ->
        process_file_info server truetype load_default recurse d token path w
        = (Ok tt,
           world_of (get_files_from_github server (fi_url d) token
                       MAX_RETRIES w),
           events_of (get_files_from_github server (fi_url d) token
                        MAX_RETRIES w))
        /\ disk (world_of (get_files_from_github server (fi_url d) token
                             MAX_RETRIES w)) = disk w
        /\ Forall (fun ev => touches_disk ev = false)
                  (events_of (get_files_from_github server (fi_url d) token
                                MAX_RETRIES w)))
  /\ (forall (recurse : list file_info -> option str -> str -> M FS unit)
             (truthy : bool),
        outcome_of (get_files_from_github server (fi_url d) token MAX_RETRIES w)
        = Ok (Some (JsonOther truthy)) ->
        process_file_info server truetype load_default recurse d token path w
        = (if truthy then Raised else Ok tt,
           world_of (get_files_from_github server (fi_url d) token
                       MAX_RETRIES w),
           events_of (get_files_from_github server (fi_url d) token
                        MAX_RETRIES w)))
  /\ (forall recurse : list file_info -> option str -> str -> M FS unit,
        outcome_of (get_files_from_github server (fi_url d) token MAX_RETRIES w)
        = Raised ->
        process_file_info server truetype load_default recurse d token path w
        = (Raised,
           world_of (get_files_from_github server (fi_url d) token
                       MAX_RETRIES w),
           events_of (get_files_from_github server (fi_url d) token
                        MAX_RETRIES w))).
Proof.
  intros Hd.
  destruct (get_files_inv (fi_url d) token MAX_RETRIES w) as [Hret [Hdisk Hev]].
  split; [|split; [|split; [|split]]].
  - destruct Hret as [Hret|Hraised]; [now left|]. right.
    split; [exact Hraised|]. now apply (get_files_raises _ _ MAX_RETRIES w).
  - intros x xs Hout. rewrite process_dir_entry by exact Hd. unfold bind.
    destruct (get_files_from_github _ _ _ _ _) as [[o w1] ev1].
    unfold outcome_of in Hout. cbn in Hout. subst o. reflexivity.
  - intros recurse Hout. rewrite process_dir_entry by exact Hd. unfold bind.
    destruct (get_files_from_github _ _ _ _ _) as [[o w1] ev1].
    unfold outcome_of, world_of, events_of in *. cbn [fst snd] in *.
    split; [|split; [exact Hdisk|]].
    + destruct Hout as [-> | ->]; cbn; now rewrite app_nil_r.
    + eapply Forall_impl; [exact Hev|]. intros ev [->| ->]; reflexivity.
  - intros recurse truthy Hout. rewrite process_dir_entry by exact Hd.
    unfold bind.
    destruct (get_files_from_github _ _ _ _ _) as [[o w1] ev1].
    unfold outcome_of, world_of, events_of in *. cbn [fst snd] in *.
    subst o. destruct truthy; cbn; now rewrite app_nil_r.
  - intros recurse Hout. rewrite process_dir_entry by exact Hd. unfold bind.
    destruct (get_files_from_github _ _ _ _ _) as [[o w1] ev1].
    unfold outcome_of, world_of, events_of in *. cbn [fst snd] in *.
    now subst o.
Qed.


(** *** Where the walk goes *)


Lemma saves_listed_up (token : option str) (files : list file_info)
    (d : file_info) (n : nat) (r : response) (sub : list file_info)
    (path : str) (ev : event) :
  d ∈ files ->
  fi_type d = u "dir" ->
  server n {| req_url := fi_url d; req_headers := listing_headers token |}
  = Response r ->
  status_code r = 200 ->
  json r = Decoded (JsonArray sub) ->
  saves_listed server truetype load_default token sub
    (os_path_join path (fi_name d)) ev ->
  saves_listed server truetype load_default token files path ev.
Proof.
  intros Hin Hd Hr Hst Hj. destruct ev as [rq|secs|p|p img]; cbn; auto.
  intros (dirs & f & Hb & Hrender & ->).
  exists (fi_name d :: dirs), f.
  split; [econstructor; eauto|]. split; [exact Hrender | reflexivity].
Qed.

(** Every image of a run of [process_files] renders a file entry listed
    beneath the listing, and goes where the directories down to the entry
    lead; also when the run is cut short. *)
Lemma process_files_saves_listed (fuel : nat) :
  forall (files : list file_info) (token : option str) (path : str)
         (w : world FS),
    Forall (saves_listed server truetype load_default token files path)
           (events_of (process_files server truetype load_default fuel files
                         token path w)).
Proof.
  induction fuel as [|n IH]; intros files token path w; [constructor|].
  cbn [process_files]. apply for_each_events_in.
  apply Forall_forall. intros f Hf. clear w. intros w.
  destruct (bool_decide (fi_type f = u "file")
            && has_allowed_extension (fi_name f)) eqn:Hfile.
  - apply andb_true_iff in Hfile as [Hty Hext].
    apply bool_decide_eq_true in Hty.
    rewrite process_file_entry by assumption. cbv zeta.
    assert (Hget : saves_listed server truetype load_default token files path
                     (EGet {| req_url := fi_download_url f;
                              req_headers := download_headers |}))
      by exact I.
    assert (Hdir : saves_listed server truetype load_default token files path
                     (EMakedirs (os_path_join OUTPUT_DIR path)))
      by exact I.
    destruct (server (clock w) _) as [|r] eqn:Hr; [all_expected|].
    destruct ((status_code r =? 200) && negb (blank (text r))) eqn:Hok;
      [|all_expected].
    apply andb_true_iff in Hok as [Hst Hnb].
    apply Z.eqb_eq in Hst. apply negb_true_iff in Hnb.
    assert (Hsave : saves_listed server truetype load_default token files path
                      (ESave (os_path_join (os_path_join OUTPUT_DIR path)
                                (fi_name f ++ u ".png"))
                             (rendered_image truetype load_default (text r)))).
    { exists [], f. split; [now constructor|]. split; [|reflexivity].
      split; [exact Hty|]. split; [exact Hext|]. exists (clock w), r. auto. }
    destruct (path_exists (disk w) _).
    + destruct (save _ _ _); all_expected.
    + destruct (makedirs _ _) as [d1|]; [destruct (save _ _ _)|];
        all_expected.
  - destruct (decide (fi_type f = u "dir")) as [Hd|Hd].
    + rewrite process_dir_entry by exact Hd. apply bind_events_on.
      * eapply Forall_impl; [apply get_files_inv|].
        intros ev [->| ->]; exact I.
      * intros [[[|x xs]|[|]]|] Hout; try constructor.
        destruct (get_files_returns _ _ _ _ _ Hout) as (n' & r & Hr & Hst & Hj).
        eapply Forall_impl; [apply IH|].
        intros ev. now apply (saves_listed_up token files f n' r (x :: xs)).
    + rewrite process_other_entry by assumption. constructor.
Qed.

(** The same for a run of [main], from the listing of the repository. *)
Lemma main_saves_listed (fuel : nat) (repo_url : str) (token : option str)
    (w : world FS) (p : str) (img : image) :
  ESave p img ∈ events_of (main server truetype load_default fuel repo_url
                             token w) ->
  exists (dirs : list str) (f : file_info),
    in_repository server token repo_url dirs f
    /\ rendering_of server truetype load_default f img
    /\ p = os_path_join (os_path_join OUTPUT_DIR (rel_of dirs))
                        (fi_name f ++ u ".png").
Proof.
  intros Hin.
  assert (Hall : Forall
    (fun ev => forall p img, ev = ESave p img ->
       exists (dirs : list str) (f : file_info),
         in_repository server token repo_url dirs f
         /\ rendering_of server truetype load_default f img
         /\ p = os_path_join (os_path_join OUTPUT_DIR (rel_of dirs))
                             (fi_name f ++ u ".png"))
    (events_of (main server truetype load_default fuel repo_url token w))).
  { unfold main. cbv zeta. fold (api_url repo_url). apply bind_events_on.
    - eapply Forall_impl; [apply get_files_inv|].
      intros ev [->| ->]; discriminate.
    - intros [[[|x xs]|[|]]|] Hout; try constructor.
      destruct (get_files_returns _ _ _ _ _ Hout) as (n & r & Hr & Hst & Hj).
      eapply Forall_impl; [apply process_files_saves_listed|].
      intros ev Hev p' img' ->.
      destruct Hev as (dirs & f & Hb & Hrender & ->).
      exists dirs, f. split; [|split; [exact Hrender | reflexivity]].
      exists n, r, (x :: xs). auto. }
  rewrite Forall_forall in Hall. exact (Hall _ Hin p img eq_refl).
Qed.


End WalkerFacts.

(* ===================================================================== *)
(** * The statements at concrete inputs                                   *)
(* ===================================================================== *)

Local Open Scope Z_scope.

(** ** The rasterizer *)

(** The one-line text [a] in the built-in bitmap face measures 11 pixels in
    height: the canvas is 56 pixels high, below the 60 pixels that twice the
    padding and one nominal line advance would give. *)
Lemma C1_counterexample :
  (1 <= length (splitlines (u "a")))%nat
  /\ ~ (2 * PADDING
        + Z.of_nat (length (splitlines (u "a"))) * (FONT_SIZE + LINE_SPACING)
        <= (img_size (rendered_image no_truetype bitmap_font (u "a"))).2).
Proof.
  split; [vm_compute; lia|].
  assert (E : img_size (rendered_image no_truetype bitmap_font (u "a"))
              = (46, 56)) by (vm_compute; reflexivity).
  rewrite E. vm_compute. intros Hle. now apply Hle.
Qed.

Lemma C1_canvas_lower_bound_witness :
  2 * PADDING
  <= (img_size (rendered_image no_truetype bitmap_font
                  (u "ab" ++ [10%N] ++ u "c"))).1
  /\ 2 * PADDING
     + Z.of_nat (length (splitlines (u "ab" ++ [10%N] ++ u "c")))
       * (11 + LINE_SPACING)
     <= (img_size (rendered_image no_truetype bitmap_font
                     (u "ab" ++ [10%N] ++ u "c"))).2.
Proof.
  apply (C1_canvas_lower_bound no_truetype bitmap_font
           (u "ab" ++ [10%N] ++ u "c") 11).
  - vm_compute. lia.
  - lia.
  - vm_compute. repeat (constructor; [discriminate|]). constructor.
  - vm_compute. reflexivity.
Defined.

(** C2, at an input where the code is one pixel short.  With a face whose box
    is the inked area, the three lines of [Xy\n\n\n] measure 13, 0 and 0
    pixels: the average is the float nearest to 13/3, the product of the
    rounded sum with 3 is just below 28 and [int] truncates it to 27.  The
    canvas is 67 pixels high, where the formula gives 68. *)
Theorem C2_height_one_below_formula :
  splitlines (u "Xy" ++ [10; 10; 10]%N) = [u "Xy"; []; []]
  /\ map (line_height (load_font (courier ink_font) bitmap_font))
         (splitlines (u "Xy" ++ [10; 10; 10]%N)) = [13; 0; 0]
  /\ widest (load_font (courier ink_font) bitmap_font)
            (splitlines (u "Xy" ++ [10; 10; 10]%N)) = 18
  /\ img_size (rendered_image (courier ink_font) bitmap_font
                 (u "Xy" ++ [10; 10; 10]%N))
     = (18 + 2 * PADDING, 67)
  /\ ((inject_Z (13 + 0 + 0) / inject_Z 3 + inject_Z LINE_SPACING)
      * inject_Z 3 + inject_Z (2 * PADDING) == 68)%Q.
Proof. vm_compute. repeat split. Qed.

Lemma C7_zero_lines_witness :
  img_size (rendered_image no_truetype bitmap_font (u ""))
  = (2 * PADDING, 2 * PADDING)
  /\ events_of (create_image_from_text no_truetype bitmap_font (u "")
                  (u "screenshots/empty.txt.png") start)
     = [ESave (u "screenshots/empty.txt.png")
              (rendered_image no_truetype bitmap_font (u ""))].
Proof.
  destruct (C7_zero_lines no_truetype bitmap_font (u "")
              (u "screenshots/empty.txt.png") start)
    as (_ & Hsize & _ & Hev & _).
  - reflexivity.
  - split; [exact Hsize | exact Hev].
Defined.

(** ** The tree walker *)



(** A listing endpoint that answers with the listing and the status 201 has
    answered the first request with a success status, and so has one that
    answers with the status 200 and a body that is no JSON; the fetch asks
    three times all the same and gives up. *)
Lemma C4_counterexample :
  ~ stops_at_first_success_as_claimed
      (fun i => created_server repo_root i
                  {| req_url := u "api/src";
                     req_headers := listing_headers None |})
      (get_files_from_github (created_server repo_root) (u "api/src") None
         MAX_RETRIES start)
  /\ ~ stops_at_first_success_as_claimed
         (fun i => garbled_server i
                     {| req_url := u "api/src";
                        req_headers := listing_headers None |})
         (get_files_from_github garbled_server (u "api/src") None
            MAX_RETRIES start).
Proof.
  split; intros Hall.
  - destruct (Hall 0%nat) as [Hlen Hout].
    + lia.
    + reflexivity.
    + intros j Hj. lia.
    + apply Hout. vm_compute. reflexivity.
  - destruct (Hall 0%nat) as [Hlen Hout].
    + lia.
    + reflexivity.
    + intros j Hj. lia.
    + apply Hout. vm_compute. reflexivity.
Qed.

(** A body with status 200 that is no JSON: the attempt fails and is
    repeated where the decode error is a [RequestException], and the error
    escapes from the first attempt where it is not.  A JSON object with
    status 200 is returned as it is, and [main] raises on it. *)
Example listing_that_is_no_array :
  get_files_from_github garbled_server (u "api/src") None MAX_RETRIES start
  = (Ok None, after_requests 3 start,
     attempts_trace {| req_url := u "api/src";
                       req_headers := listing_headers None |} 3)
  /\ get_files_from_github legacy_garbled_server (u "api/src") None
       MAX_RETRIES start
     = (Raised, after_requests 1 start,
        attempts_trace {| req_url := u "api/src";
                          req_headers := listing_headers None |} 1)
  /\ get_files_from_github object_server (u "api/src") None MAX_RETRIES start
     = (Ok (Some (JsonOther true)), after_requests 1 start,
        attempts_trace {| req_url := u "api/src";
                          req_headers := listing_headers None |} 1)
  /\ outcome_of (main object_server no_truetype bitmap_font 5
                   (u "https://github.com/user/repo") None start)
     = Raised.
Proof. vm_compute. repeat split. Qed.

Lemma C4_listing_fetch_retries_witness :
  get_files_from_github (flaky_server 5 repo_root) (u "api/src") None
    MAX_RETRIES start
  = (Ok None, after_requests 3 start,
     attempts_trace {| req_url := u "api/src";
                       req_headers := listing_headers None |} 3)
  /\ get_files_from_github garbled_server (u "api/src") None MAX_RETRIES start
     = (Ok None, after_requests 3 start,
        attempts_trace {| req_url := u "api/src";
                          req_headers := listing_headers None |} 3)
  /\ outcome_of (get_files_from_github (flaky_server 2 repo_root)
                   (u "api/src") None MAX_RETRIES start)
     = Ok (Some (JsonArray repo_root)).
Proof.
  split; [|split].
  - destruct (C4_listing_fetch_retries (flaky_server 5 repo_root) no_truetype
                bitmap_font (u "api/src") None start)
      as (_ & _ & _ & Hfail & _).
    apply Hfail. intros [|[|[|i]]] Hi; [reflexivity..|lia].
  - destruct (C4_listing_fetch_retries garbled_server no_truetype
                bitmap_font (u "api/src") None start)
      as (_ & _ & _ & Hfail & _).
    apply Hfail. intros [|[|[|i]]] Hi; [reflexivity..|lia].
  - destruct (C4_listing_fetch_retries (flaky_server 2 repo_root) no_truetype
                bitmap_font (u "api/src") None start) as (_ & Hfirst & _).
    destruct (Hfirst 2%nat
                {| status_code := 200; text := [];
                   json := Decoded (JsonArray repo_root) |}
                (JsonArray repo_root)) as [Hout _].
    + lia.
    + reflexivity.
    + reflexivity.
    + reflexivity.
    + intros [|[|j]] Hj; [reflexivity..|lia].
    + exact Hout.
Defined.

Lemma C5_blank_content_no_image_witness :
  disk (world_of (process_file_info repo_server no_truetype bitmap_font
                    (process_files repo_server no_truetype bitmap_font 0)
                    (entry "file" "blank.txt" "api/blank.txt" "raw/blank.txt")
                    None (u "") start))
  = disk start.
Proof.
  destruct (C5_blank_content_no_image repo_server no_truetype bitmap_font
              (process_files repo_server no_truetype bitmap_font 0)
              (entry "file" "blank.txt" "api/blank.txt" "raw/blank.txt")
              None (u "") start) as [Hblank _].
  - reflexivity.
  - destruct (Hblank {| status_code := 200; text := [32; 10; 9; 0x3000]%N;
                        json := JSONDecodeError |}) as (_ & Hdisk & _).
    + vm_compute. reflexivity.
    + vm_compute. reflexivity.
    + exact Hdisk.
Defined.

Lemma C6_unlisted_extension_skipped_witness :
  process_file_info repo_server no_truetype bitmap_font
    (process_files repo_server no_truetype bitmap_font 0)
    (entry "file" "notes.md" "api/notes.md" "raw/notes.md") None (u "") start
  = (Ok tt, start, []).
Proof.
  destruct (C6_unlisted_extension_skipped repo_server no_truetype bitmap_font
              (entry "file" "notes.md" "api/notes.md" "raw/notes.md"))
    as [Hskip _].
  - reflexivity.
  - vm_compute. reflexivity.
  - apply Hskip.
Defined.


Lemma C10_recursion_iff_nonempty_witness :
  process_file_info repo_server no_truetype bitmap_font
    (process_files repo_server no_truetype bitmap_font 3)
    (entry "dir" "empty" "api/empty" "") None (u "") start
  = (Ok tt, after_requests 1 start,
     [EGet {| req_url := u "api/empty"; req_headers := listing_headers None |}]).
Proof.
  destruct (C10_recursion_iff_nonempty repo_server no_truetype bitmap_font 3
              (entry "dir" "empty" "api/empty" "") None (u "") start)
    as (_ & _ & Hskip & _).
  - reflexivity.
  - destruct (Hskip (process_files repo_server no_truetype bitmap_font 3))
      as [Hrun _].
    + left. vm_compute. reflexivity.
    + rewrite Hrun. vm_compute. reflexivity.
Defined.

(** ** Whole runs *)

(** The walk of the small repository: [main.py] and [src/utils/helper.py] are
    rendered, [notes.md] is passed over, [blank.txt] is downloaded and
    dropped, the listing of [broken] is asked for three times, and nothing
    comes of [empty]. *)
Example walk_of_the_small_repository :
  outcome_of (main repo_server no_truetype bitmap_font 5
                (u "https://github.com/user/repo") (Some (u "tok")) start)
  = Ok tt
  /\ saved_paths (events_of (main repo_server no_truetype bitmap_font 5
                               (u "https://github.com/user/repo")
                               (Some (u "tok")) start))
     = [u "screenshots/main.py.png"; u "screenshots/src/utils/helper.py.png"]
  /\ made_dirs (events_of (main repo_server no_truetype bitmap_font 5
                             (u "https://github.com/user/repo")
                             (Some (u "tok")) start))
     = [u "screenshots/"; u "screenshots/src/utils"]
  /\ requested_urls (events_of (main repo_server no_truetype bitmap_font 5
                                  (u "https://github.com/user/repo")
                                  (Some (u "tok")) start))
     = map u ["https://api.github.com/repos/user/repo/contents";
              "raw/main.py"; "raw/blank.txt"; "api/empty";
              "api/broken"; "api/broken"; "api/broken";
              "api/src"; "api/src/utils"; "raw/helper.py"]%string.
Proof. vm_compute. repeat split. Qed.

(** The same walk with a depth bound below the depth of the tree stops at
    [src/utils]. *)
Example walk_out_of_fuel :
  outcome_of (main repo_server no_truetype bitmap_font 2
                (u "https://github.com/user/repo") None start)
  = OutOfFuel.
Proof. vm_compute. reflexivity. Qed.

(** The scenario of the specification: [main.py] holding [print("hi")] and a
    line feed is one line of 11 characters; the canvas is the width of the
    text plus 40 by the line height plus 5 plus 40, in the bitmap face and in
    a face that only has [getsize]. *)
Example canvas_of_one_line :
  img_size (rendered_image no_truetype bitmap_font
              (u "print(" ++ [34%N] ++ u "hi" ++ [34%N] ++ u ")" ++ [10%N]))
  = (6 * 11 + 40, 11 + 5 + 40)
  /\ img_size (rendered_image no_truetype legacy_font
                 (u "print(" ++ [34%N] ++ u "hi" ++ [34%N] ++ u ")" ++ [10%N]))
     = (6 * 11 + 40, 11 + 5 + 40).
Proof. vm_compute. split; reflexivity. Qed.


(* ===================================================================== *)
(** * Further properties                                                  *)
(* ===================================================================== *)

(** ** The canvas and what is painted on it *)

(** The upper counterpart of [total_height_lower]. *)
Lemma total_height_upper (S n h : Z) :
  (0 <= S)%Z -> (1 <= n)%Z -> (S <= h * n)%Z ->
  ((h + LINE_SPACING) * n < 2 ^ 53)%Z ->
  (py_int (py_mul (py_add (py_truediv S n) (PyInt LINE_SPACING)) (PyInt n))
   <= (h + LINE_SPACING) * n)%Z.
Proof.
  intros HS Hn HSh Hbig. unfold LINE_SPACING in *.
  unfold py_truediv, py_add, py_mul, to_float.
  assert (Hh : (0 <= h)%Z) by nia.
  rewrite (Float64Facts.rnd_inject_Z 5) by lia.
  rewrite (Float64Facts.rnd_inject_Z n) by nia.
  set (q := Float64.rnd (inject_Z S / inject_Z n)).
  set (x := Float64.rnd (q + inject_Z 5)).
  assert (Hnq : (0 < inject_Z n)%Q).
  { change 0%Q with (inject_Z 0). rewrite <- Zlt_Qlt. lia. }
  assert (HSq : (0 <= inject_Z S)%Q).
  { change 0%Q with (inject_Z 0). rewrite <- Zle_Qle. lia. }
  assert (Hq0 : (0 <= inject_Z S / inject_Z n)%Q)
    by (apply Qle_shift_div_l; lra).
  assert (Hdiv : (inject_Z S / inject_Z n <= inject_Z h)%Q).
  { apply Qle_shift_div_r; [exact Hnq|].
    rewrite <- inject_Z_mult, <- Zle_Qle. lia. }
  assert (Hq : (0 <= q <= inject_Z h)%Q).
  { split; [now apply Float64Facts.rnd_nonneg|].
    rewrite <- (Float64Facts.rnd_inject_Z h) by nia.
    now apply Float64Facts.rnd_mono. }
  assert (Hx : (0 <= x <= inject_Z (h + 5))%Q).
  { change (inject_Z 5) with 5%Q in *. split.
    - apply Float64Facts.rnd_nonneg. lra.
    - rewrite <- (Float64Facts.rnd_inject_Z (h + 5)) by nia.
      apply Float64Facts.rnd_mono; [lra|]. rewrite inject_Z_plus.
      change (inject_Z 5) with 5%Q. lra. }
  assert (Hxn : (0 <= x * inject_Z n)%Q) by nra.
  apply py_int_upper; [now apply Float64Facts.rnd_nonneg|].
  apply Qle_lt_trans with (inject_Z ((h + 5) * n)).
  - rewrite <- (Float64Facts.rnd_inject_Z ((h + 5) * n)) by lia.
    apply Float64Facts.rnd_mono; [exact Hxn|].
    rewrite inject_Z_mult. apply Qmult_le_compat_r; lra.
  - rewrite <- Zlt_Qlt. lia.
Qed.

Section CanvasFacts.
Variable truetype : str -> Z -> option font.
Variable load_default : font.

Local Open Scope Z_scope.

Lemma fold_max_mono (fnt : font) (lines : list str) (a b : Z) :
  a <= b ->
  fold_left (fun m line => Z.max m (line_width fnt line)) lines a
  <= fold_left (fun m line => Z.max m (line_width fnt line)) lines b.
Proof.
  revert a b. induction lines as [|line rest IH]; intros a b Hab; simpl.
  - exact Hab.
  - apply IH. lia.
Qed.

Lemma widest_upper (fnt : font) (lines : list str) :
  Forall (fun line => line_width fnt line <= widest fnt lines) lines.
Proof.
  unfold widest. generalize 0 as m.
  induction lines as [|line rest IH]; intros m; [constructor|].
  cbn [fold_left]. constructor.
  - pose proof (fold_max_lower fnt rest (Z.max m (line_width fnt line))). lia.
  - apply IH.
Qed.

(** X1.  The canvas is wide enough for every line with the padding on both
    sides. *)
Theorem canvas_fits_every_line (content : str) :
  Forall (fun line =>
            line_width (load_font truetype load_default) line + 2 * PADDING
            <= (img_size (rendered_image truetype load_default content)).1)
         (splitlines content).
Proof.
  rewrite rendered_image_size. cbn [fst].
  eapply Forall_impl;
    [apply (widest_upper (load_font truetype load_default))|].
  cbn. intros line Hl. lia.
Qed.

(** X2.  When every line measures between [lo] and [hi] pixels in height, the
    canvas is between [lines * (lo + spacing)] and [lines * (hi + spacing)]
    pixels high, plus the padding; with a face that measures every line
    equally tall the height is exact. *)
Theorem canvas_height_between (content : str) (lo hi : Z) :
  (1 <= length (splitlines content))%nat ->
  0 <= lo ->
  Forall (fun line =>
            lo <= line_height (load_font truetype load_default) line <= hi)
         (splitlines content) ->
  (hi + LINE_SPACING) * Z.of_nat (length (splitlines content)) < 2 ^ 53 ->
  Z.of_nat (length (splitlines content)) * (lo + LINE_SPACING) + 2 * PADDING
  <= (img_size (rendered_image truetype load_default content)).2
  <= Z.of_nat (length (splitlines content)) * (hi + LINE_SPACING) + 2 * PADDING.
Proof.
  intros Hlen Hlo Hall Hbig. rewrite rendered_image_size. cbn [snd].
  set (fnt := load_font truetype load_default) in *.
  set (lines := splitlines content) in *.
  unfold total_height.
  rewrite avg_line_height_nonempty
    by (destruct lines; [simpl in Hlen; lia | discriminate]).
  rewrite measured_heights_length.
  set (n := Z.of_nat (length lines)) in *.
  assert (Hn : 1 <= n) by (unfold n; lia).
  assert (Hsum_lo : lo * n <= py_sum (map (line_height fnt) lines)).
  { unfold n. rewrite <- (measured_heights_length fnt lines).
    apply py_sum_lower. rewrite Forall_map.
    eapply Forall_impl; [exact Hall|]. cbn. lia. }
  assert (Hsum_hi : py_sum (map (line_height fnt) lines) <= hi * n).
  { unfold n. clear -Hall. induction Hall as [|line rest Hl _ IH].
    - cbn. unfold py_sum. cbn. lia.
    - cbn [map length]. rewrite py_sum_cons. lia. }
  assert (Hlohi : lo <= hi).
  { destruct lines as [|l0 ?]; [simpl in Hlen; lia|].
    apply Forall_cons in Hall as [Hl _]. lia. }
  clearbody n.
  assert (Hbig_lo : (lo + LINE_SPACING) * n < 2 ^ 53).
  { apply Z.le_lt_trans with ((hi + LINE_SPACING) * n); [|exact Hbig].
    apply Z.mul_le_mono_nonneg_r; lia. }
  assert (Hsum0 : 0 <= py_sum (map (line_height fnt) lines)).
  { apply Z.le_trans with (lo * n); [|exact Hsum_lo].
    apply Z.mul_nonneg_nonneg; lia. }
  pose proof (total_height_lower _ n lo Hlo Hn Hsum_lo Hbig_lo) as H1.
  pose proof (total_height_upper _ n hi Hsum0 Hn Hsum_hi Hbig) as H2.
  lia.
Qed.

Lemma draw_lines_text (fnt : font) (avg : pynum) (lines : list str)
    (y : pynum) (img : image) :
  exists ops,
    img_text (draw_lines fnt avg lines y img) = img_text img ++ ops
    /\ map op_text ops = lines
    /\ Forall (fun op => (op_xy op).1 = PADDING /\ op_font op = fnt
                         /\ op_fill op = u "black") ops
    /\ head (map (fun op => (op_xy op).2) ops)
       = match lines with [] => None | _ => Some y end
    /\ (forall i a b,
          map (fun op => (op_xy op).2) ops !! i = Some a ->
          map (fun op => (op_xy op).2) ops !! S i = Some b ->
          b = py_add a (py_add avg (PyInt LINE_SPACING))).
Proof.
  revert y img. induction lines as [|line rest IH]; intros y img.
  - exists []. cbn. rewrite app_nil_r. repeat split; auto.
    intros i a b Ha. destruct i; discriminate Ha.
  - cbn [draw_lines].
    destruct (IH (py_add y (py_add avg (PyInt LINE_SPACING)))
                 (draw_text img (PADDING, y) line fnt (u "black")))
      as (ops & Htext & Hlines & Hall & Hhead & Hstep).
    exists ({| op_xy := (PADDING, y); op_text := line; op_font := fnt;
               op_fill := u "black" |} :: ops).
    split; [|split; [|split; [|split]]].
    + rewrite Htext. cbn [draw_text img_text]. now rewrite <- app_assoc.
    + cbn [map op_text]. now rewrite Hlines.
    + constructor; [cbn; auto | exact Hall].
    + reflexivity.
    + intros [|i] a b Ha Hb.
      * cbn in Ha. injection Ha as <-.
        assert (Hb' : head (map (fun op => (op_xy op).2) ops) = Some b)
          by (rewrite head_lookup; exact Hb).
        rewrite Hhead in Hb'. destruct rest; [discriminate|].
        now injection Hb' as <-.
      * exact (Hstep i a b Ha Hb).
Qed.

Lemma rendered_image_text (content : str) :
  map op_text (img_text (rendered_image truetype load_default content))
  = splitlines content.
Proof.
  unfold rendered_image. rewrite measure_lines_spec. cbn [app].
  match goal with
  | |- context [draw_lines ?fnt ?avg ?lines ?y ?img] =>
      destruct (draw_lines_text fnt avg lines y img)
        as (ops & Htext & Hlines & _)
  end.
  rewrite Htext. exact Hlines.
Qed.

(** X3.  The canvas is an RGB image on white; every line of the text is painted
    once, in order, in black and in the loaded face, at the left padding; the
    first line is at the top padding and every next one is the same advance
    further down: the average line height plus the line spacing. *)
Theorem every_line_painted_once (content : str) :
  img_mode (rendered_image truetype load_default content) = u "RGB"
  /\ img_color (rendered_image truetype load_default content) = u "white"
  /\ map op_text (img_text (rendered_image truetype load_default content))
     = splitlines content
  /\ Forall (fun op => (op_xy op).1 = PADDING
                       /\ op_font op = load_font truetype load_default
                       /\ op_fill op = u "black")
            (img_text (rendered_image truetype load_default content))
  /\ head (text_ys (rendered_image truetype load_default content))
     = match splitlines content with [] => None | _ => Some (PyInt PADDING) end
  /\ (forall i a b,
        text_ys (rendered_image truetype load_default content) !! i = Some a ->
        text_ys (rendered_image truetype load_default content) !! S i
        = Some b ->
        b = py_add a
              (py_add (avg_line_height
                         (map (line_height (load_font truetype load_default))
                              (splitlines content)))
                      (PyInt LINE_SPACING))).
Proof.
  unfold text_ys, rendered_image.
  set (fnt := load_font truetype load_default).
  set (lines := splitlines content).
  rewrite measure_lines_spec. cbn [app].
  set (avg := avg_line_height (map (line_height fnt) lines)).
  set (img0 := {| img_mode := u "RGB"; img_size := _; img_color := u "white";
                  img_text := [] |}).
  destruct (draw_lines_text fnt avg lines (PyInt PADDING) img0)
    as (ops & Htext & Hlines & Hall & Hhead & Hstep).
  assert (Hmode : forall ls y img,
            img_mode (draw_lines fnt avg ls y img) = img_mode img
            /\ img_color (draw_lines fnt avg ls y img) = img_color img).
  { induction ls as [|l ls IH]; intros y img; [split; reflexivity|].
    cbn [draw_lines]. destruct (IH (py_add y (py_add avg (PyInt LINE_SPACING)))
                                   (draw_text img (PADDING, y) l fnt (u "black")))
      as [-> ->]. split; reflexivity. }
  destruct (Hmode lines (PyInt PADDING) img0) as [-> ->].
  rewrite Htext. cbn [img_text app img0].
  repeat split; auto.
Qed.

End CanvasFacts.

Lemma canvas_size_up_to_truncation_witness :
  (img_size (rendered_image (courier ink_font) bitmap_font
               (u "Xy" ++ [10; 10; 10]%N))).1 = (18 + 2 * PADDING)%Z
  /\ (13 + LINE_SPACING * 3 + 2 * PADDING - 1
      <= (img_size (rendered_image (courier ink_font) bitmap_font
                      (u "Xy" ++ [10; 10; 10]%N))).2
      <= 13 + LINE_SPACING * 3 + 2 * PADDING)%Z.
Proof.
  apply (canvas_size_up_to_truncation (courier ink_font) bitmap_font
           (u "Xy" ++ [10; 10; 10]%N)).
  - vm_compute. lia.
  - vm_compute. repeat (constructor; [discriminate|]). constructor.
  - vm_compute. reflexivity.
Defined.

Lemma canvas_height_between_witness :
  (Z.of_nat (length (splitlines (u "ab" ++ [10%N] ++ u "c")))
   * (11 + LINE_SPACING) + 2 * PADDING
   <= (img_size (rendered_image no_truetype bitmap_font
                   (u "ab" ++ [10%N] ++ u "c"))).2
   <= Z.of_nat (length (splitlines (u "ab" ++ [10%N] ++ u "c")))
      * (11 + LINE_SPACING) + 2 * PADDING)%Z.
Proof.
  apply (canvas_height_between no_truetype bitmap_font
           (u "ab" ++ [10%N] ++ u "c") 11 11).
  - vm_compute. lia.
  - lia.
  - vm_compute. repeat (constructor; [split; discriminate|]). constructor.
  - vm_compute. reflexivity.
Defined.

(** ** Substrings, suffixes and the URL of the listing *)

Lemma endswith_iff (s suf : str) :
  endswith s suf = true <-> exists front, s = front ++ suf.
Proof.
  unfold endswith. rewrite bool_decide_eq_true. split.
  - intros Hs. exists (take (length s - length suf) s).
    transitivity (take (length s - length suf) s
                  ++ drop (length s - length suf) s);
      [symmetry; apply take_drop | now rewrite Hs].
  - intros [front ->]. rewrite length_app.
    replace (length front + length suf - length suf)%nat with (length front)
      by lia.
    now rewrite drop_app_length.
Qed.

Lemma startswith_iff (s pre : str) :
  startswith s pre = true <-> exists rest, s = pre ++ rest.
Proof.
  unfold startswith. rewrite bool_decide_eq_true. split.
  - intros Hs. exists (drop (length pre) s).
    transitivity (take (length pre) s ++ drop (length pre) s);
      [symmetry; apply take_drop | now rewrite Hs].
  - intros [rest ->]. now rewrite take_app_length.
Qed.

(** X4.  A name is rendered exactly when it is some stem, possibly empty,
    followed by one of the extensions of the allow-list, letter case
    included. *)
Theorem has_allowed_extension_iff (name : str) :
  has_allowed_extension name = true
  <-> exists stem ext, ext ∈ FILE_EXTENSIONS /\ name = stem ++ ext.
Proof.
  unfold has_allowed_extension. rewrite existsb_exists. split.
  - intros (ext & Hin & Hends). apply endswith_iff in Hends as [stem ->].
    exists stem, ext. split; [now apply list_elem_of_In | reflexivity].
  - intros (stem & ext & Hin & ->). exists ext.
    split; [now apply list_elem_of_In|]. apply endswith_iff. eauto.
Qed.

Lemma has_allowed_extension_iff_witness :
  has_allowed_extension (u ".py") = true
  /\ exists stem ext,
       ext ∈ FILE_EXTENSIONS /\ u "lib.rs" = stem ++ ext.
Proof.
  split.
  - apply (proj2 (has_allowed_extension_iff (u ".py"))).
    exists [], (u ".py"). split; [|reflexivity].
    apply list_elem_of_In. vm_compute. tauto.
  - apply (proj1 (has_allowed_extension_iff (u "lib.rs"))).
    vm_compute. reflexivity.
Defined.

Lemma replace_from_skip (old new pre rest : str) :
  replace_from old new (length pre) (pre ++ rest)
  = replace_from old new 0 rest.
Proof.
  induction pre as [|c pre IH]; [reflexivity|]. cbn. exact IH.
Qed.

Lemma replace_prefix (old new rest : str) :
  old <> [] -> replace (old ++ rest) old new = new ++ replace rest old new.
Proof.
  intros Hold. unfold replace. destruct old as [|c old]; [congruence|].
  cbn [app replace_from].
  assert (Hs : startswith (c :: old ++ rest) (c :: old) = true).
  { apply startswith_iff. exists rest. reflexivity. }
  rewrite Hs. f_equal. cbn [length].
  replace (S (length old) - 1)%nat with (length old) by lia.
  apply replace_from_skip.
Qed.

Lemma replace_absent (old new s : str) :
  ~ occurs old s -> replace s old new = s.
Proof.
  unfold replace. induction s as [|c s IH]; intros Hno; [reflexivity|].
  cbn [replace_from].
  destruct (startswith (c :: s) old) eqn:Hs.
  - exfalso. apply Hno. apply startswith_iff in Hs as [rest Hrest].
    exists [], rest. exact Hrest.
  - f_equal. apply IH. intros (pre & post & ->). apply Hno.
    exists (c :: pre), post. reflexivity.
Qed.

(** The listing URL of a repository URL, with and without the prefix
    [https://github.com/]. *)
Lemma api_url_of_repo_url (rest : str) :
  ~ occurs (u "https://github.com/") rest ->
  api_url (u "https://github.com/" ++ rest)
  = u "https://api.github.com/repos/" ++ rest ++ u "/contents"
  /\ api_url rest
     = u "https://api.github.com/repos/" ++ rest ++ u "/contents".
Proof.
  intros Hno. unfold api_url. split.
  - rewrite replace_prefix by discriminate.
    now rewrite replace_absent.
  - now rewrite replace_absent.
Qed.

Lemma shorter_not_occurs (old s : str) :
  (length s < length old)%nat -> ~ occurs old s.
Proof.
  intros Hlen (pre & post & ->). rewrite !length_app in Hlen. lia.
Qed.

(** ** More of the tree walker *)

Section WalkerMoreFacts.
Context {FS : Type} `{FileSystem FS}.
Variable server : nat -> request -> http_result.
Variable truetype : str -> Z -> option font.
Variable load_default : font.

Local Open Scope Z_scope.

(** *** The retry loop for any bound *)

(** X5.  The listing fetch for any bound [retries].  It sends at most
    [retries] requests, none at all for a bound of zero or less, pauses one
    second between two requests and leaves the disk alone; every attempt but
    its last has failed.  It ends in one of three ways: with [None], exactly
    after [retries] failed attempts; with the decoded body of the answer to
    its last request, which has status 200; or with the exception that
    escapes from the decoding of the answer to its last request, which has
    status 200 and a body whose decoding raises an exception that is no
    [RequestException].  No exception of the HTTP client escapes. *)
Theorem listing_fetch_any_retries (url : str) (token : option str)
    (retries : Z) (w : world FS) :
  let rq := {| req_url := url; req_headers := listing_headers token |} in
  let run := get_files_from_github server url token retries w in
  exists k : nat,
    (k <= Z.to_nat retries)%nat
    /\ events_of run = attempts_trace rq k
    /\ world_of run = after_requests k w
    /\ (forall j, (j < k - 1)%nat ->
          attempt_end_of (server (j + clock w)%nat rq) = Fails)
    /\ ((outcome_of run = Ok None
         /\ k = Z.to_nat retries
         /\ forall j, (j < Z.to_nat retries)%nat ->
              attempt_end_of (server (j + clock w)%nat rq) = Fails)
        \/ ((1 <= k)%nat
            /\ exists (r : response) (v : json_value),
                 outcome_of run = Ok (Some v)
                 /\ server (k - 1 + clock w)%nat rq = Response r
                 /\ status_code r = 200
                 /\ json r = Decoded v)
        \/ ((1 <= k)%nat
            /\ exists r : response,
                 outcome_of run = Raised
                 /\ server (k - 1 + clock w)%nat rq = Response r
                 /\ status_code r = 200
                 /\ json r = ValueError)).
Proof.
  cbv zeta. unfold get_files_from_github, py_range.
  destruct (fetch_attempts_from server url (listing_headers token) retries
              (Z.to_nat retries) 0 w eq_refl)
    as (k & Hk & Hev & Hw & Hbefore & Hcase).
  exists k. split; [exact Hk|]. split; [exact Hev|]. split; [exact Hw|].
  split; [exact Hbefore|].
  destruct Hcase as [Hnone | [(Hk1 & v & Ho & Hret) | (Hk1 & Ho & Hesc)]].
  - now left.
  - right. left. split; [exact Hk1|].
    apply attempt_end_of_spec in Hret as (r & Hr & Hst & Hj).
    exists r, v. auto.
  - right. right. split; [exact Hk1|].
    apply attempt_end_of_spec in Hesc as (r & Hr & Hst & Hj).
    exists r. auto.
Qed.

(** *** Downloads that fail *)

(** X6.  An exception of the HTTP client while the content of a file is
    downloaded is not caught: the run ends there with the exception, and the
    entries after the file are not processed. *)
Theorem download_exception_aborts (fuel : nat) (f : file_info)
    (rest : list file_info) (token : option str) (path : str)
    (w : world FS) :
  fi_type f = u "file" ->
  has_allowed_extension (fi_name f) = true ->
  server (clock w) {| req_url := fi_download_url f;
                      req_headers := download_headers |} = RequestException ->
  process_files server truetype load_default (S fuel) (f :: rest) token path w
  = (Raised, after_requests 1 w,
     [EGet {| req_url := fi_download_url f;
              req_headers := download_headers |}]).
Proof.
  intros Hty Hext Hexc. cbn [process_files for_each]. unfold bind.
  rewrite process_file_entry by assumption. cbv zeta. now rewrite Hexc.
Qed.

(** X7.  A download answered with a status other than 200 writes nothing, and
    the walk goes on with the next entry of the listing. *)
Theorem download_status_skips (fuel : nat) (f : file_info)
    (rest : list file_info) (token : option str) (path : str)
    (w : world FS) (r : response) :
  fi_type f = u "file" ->
  has_allowed_extension (fi_name f) = true ->
  server (clock w) {| req_url := fi_download_url f;
                      req_headers := download_headers |} = Response r ->
  status_code r <> 200 ->
  process_files server truetype load_default (S fuel) (f :: rest) token path w
  = let '(o, w2, ev2) :=
      process_files server truetype load_default (S fuel) rest token path
        (after_requests 1 w) in
    (o, w2,
     EGet {| req_url := fi_download_url f; req_headers := download_headers |}
     :: ev2).
Proof.
  intros Hty Hext Hr Hst. cbn [process_files for_each]. unfold bind at 1.
  rewrite process_file_entry by assumption. cbv zeta. rewrite Hr.
  apply Z.eqb_neq in Hst. rewrite Hst. cbn [andb]. reflexivity.
Qed.

(** *** Listings in sequence *)

(** X8.  The entries of a listing are processed in order: a listing in two
    parts is processed as the first part and then, from the world it leaves
    and only if it returned, the second. *)
Theorem process_files_app (fuel : nat) (l1 l2 : list file_info)
    (token : option str) (path : str) (w : world FS) :
  process_files server truetype load_default fuel (l1 ++ l2) token path w
  = match process_files server truetype load_default fuel l1 token path w with
    | (Ok _, w1, ev1) =>
        let '(o, w2, ev2) :=
          process_files server truetype load_default fuel l2 token path w1 in
        (o, w2, ev1 ++ ev2)
    | stopped => stopped
    end.
Proof.
  destruct fuel as [|n]; [reflexivity|].
  cbn [process_files]. rewrite for_each_app. unfold bind.
  destruct (for_each l1 _ w) as [[[[]| |] w1] ev1]; reflexivity.
Qed.

End WalkerMoreFacts.

Lemma download_exception_aborts_witness :
  process_files (fun _ _ => RequestException) no_truetype bitmap_font 1
    [entry "file" "main.py" "api/main.py" "raw/main.py";
     entry "file" "util.py" "api/util.py" "raw/util.py"] None (u "") start
  = (Raised, after_requests 1 start,
     [EGet {| req_url := u "raw/main.py"; req_headers := download_headers |}]).
Proof.
  apply (download_exception_aborts (fun _ _ => RequestException) no_truetype
           bitmap_font 0 (entry "file" "main.py" "api/main.py" "raw/main.py")).
  - reflexivity.
  - vm_compute. reflexivity.
  - reflexivity.
Defined.

Lemma download_status_skips_witness :
  process_files (fun _ _ => status 404) no_truetype bitmap_font 1
    [entry "file" "main.py" "api/main.py" "raw/main.py"] None (u "") start
  = (Ok tt, after_requests 1 start,
     [EGet {| req_url := u "raw/main.py"; req_headers := download_headers |}]).
Proof.
  rewrite (download_status_skips (fun _ _ => status 404) no_truetype
             bitmap_font 0 (entry "file" "main.py" "api/main.py" "raw/main.py")
             [] None (u "") start
             {| status_code := 404; text := []; json := JSONDecodeError |}).
  - reflexivity.
  - reflexivity.
  - vm_compute. reflexivity.
  - reflexivity.
  - discriminate.
Defined.

(** ** Where the images go *)

Lemma os_path_join_suffix (a b : str) :
  exists front, os_path_join a b = front ++ b.
Proof.
  unfold os_path_join. destruct (startswith b (u "/")); [now exists []|].
  destruct (negb (str_truthy a) || endswith a (u "/")).
  - now exists a.
  - exists (a ++ u "/"). now rewrite <- app_assoc.
Qed.

Lemma os_path_join_absolute (a b : str) :
  startswith b (u "/") = true -> os_path_join a b = b.
Proof. intros Hb. unfold os_path_join. now rewrite Hb. Qed.

Lemma blank_false_has_line (content : str) :
  blank content = false -> splitlines content <> [].
Proof.
  intros Hb Hs. apply splitlines_nil_iff in Hs. subst content. discriminate Hb.
Qed.

Lemma slash_after_each (c : str) (rest : list str) (tail : str) :
  c ++ concat (map (fun x => u "/" ++ x) rest) ++ u "/" ++ tail
  = concat (map (fun x => x ++ u "/") (c :: rest)) ++ tail.
Proof.
  revert c. induction rest as [|d rest IH]; intros c.
  - cbn. now rewrite app_nil_r, <- app_assoc.
  - specialize (IH d). cbn [map concat] in *.
    rewrite <- !app_assoc in *. do 2 f_equal. exact IH.
Qed.

(** The destination below any chain of directories, the root included. *)
Lemma mirrored_path (comps : list str) (name : str) :
  Forall component comps ->
  component name ->
  os_path_join (os_path_join OUTPUT_DIR (rel_of comps)) (name ++ u ".png")
  = u "screenshots/" ++ concat (map (fun c => c ++ u "/") comps)
    ++ name ++ u ".png".
Proof.
  intros Hcomps Hname. destruct comps as [|c rest].
  - destruct (component_head name Hname) as [x [name' [-> Hx]]].
    unfold rel_of. cbn [fold_left map concat app].
    change (os_path_join OUTPUT_DIR []) with (u "screenshots/").
    unfold os_path_join.
    rewrite (startswith_cons x (name' ++ u ".png") Hx).
    reflexivity.
  - destruct (destination_path c rest name Hcomps Hname) as [_ Hp].
    unfold rel_of. change (@nil N) with (u "") at 1. rewrite Hp.
    f_equal. apply (slash_after_each c rest (name ++ u ".png")).
Qed.

Section DestinationFacts.
Context {FS : Type} `{FileSystem FS}.
Variable server : nat -> request -> http_result.
Variable truetype : str -> Z -> option font.
Variable load_default : font.

Local Open Scope Z_scope.

(** X9.  Every image a run writes is named after the file it renders: the
    image renders the text that the server sent, with status 200, for the
    content of an allow-listed file entry listed in the repository, and its
    path ends with the name of that entry, extension included, followed by
    [.png]. *)
Theorem saved_path_keeps_name (fuel : nat) (repo_url : str)
    (token : option str) (w : world FS) (p : str) (img : image) :
  ESave p img ∈ events_of (main server truetype load_default fuel repo_url
                             token w) ->
  exists (dirs : list str) (f : file_info) (front : str),
    in_repository server token repo_url dirs f
    /\ rendering_of server truetype load_default f img
    /\ p = front ++ fi_name f ++ u ".png".
Proof.
  intros Hin.
  destruct (main_saves_listed server truetype load_default fuel repo_url
              token w p img Hin) as (dirs & f & Hrepo & Hrender & ->).
  destruct (os_path_join_suffix (os_path_join OUTPUT_DIR (rel_of dirs))
              (fi_name f ++ u ".png")) as [front ->].
  exists dirs, f, front. auto.
Qed.

(** X10.  The walker never writes an empty canvas: every image of a run renders
    a text with a character that is not whitespace, and has at least one line
    painted on it, the lines of that text. *)
Theorem saved_canvas_has_text (fuel : nat) (repo_url : str)
    (token : option str) (w : world FS) (p : str) (img : image) :
  ESave p img ∈ events_of (main server truetype load_default fuel repo_url
                             token w) ->
  exists content,
    blank content = false
    /\ img = rendered_image truetype load_default content
    /\ map op_text (img_text img) = splitlines content
    /\ img_text img <> [].
Proof.
  intros Hin.
  destruct (main_saves_listed server truetype load_default fuel repo_url
              token w p img Hin)
    as (dirs & f & _ & (_ & _ & n & r & _ & _ & Hb & ->) & _).
  exists (text r).
  pose proof (rendered_image_text truetype load_default (text r)) as Htext.
  split; [exact Hb|]. split; [reflexivity|]. split; [exact Htext|].
  intros Hnil. rewrite Hnil in Htext. cbn in Htext.
  now apply (blank_false_has_line (text r) Hb).
Qed.

(** X11.  The name of an entry is not checked before it is joined to the output
    directory: for an allow-listed file whose name begins with a slash the
    image is saved at that name with [.png], outside the output root. *)
Theorem leading_slash_leaves_output_root
    (recurse : list file_info -> option str -> str -> M FS unit)
    (f : file_info) (token : option str) (path : str) (w : world FS)
    (r : response) :
  fi_type f = u "file" ->
  has_allowed_extension (fi_name f) = true ->
  startswith (fi_name f) (u "/") = true ->
  server (clock w) {| req_url := fi_download_url f;
                      req_headers := download_headers |} = Response r ->
  status_code r = 200 ->
  blank (text r) = false ->
  path_exists (disk w) (os_path_join OUTPUT_DIR path) = true
  \/ is_Some (makedirs (disk w) (os_path_join OUTPUT_DIR path)) ->
  ESave (fi_name f ++ u ".png")
        (rendered_image truetype load_default (text r))
  ∈ events_of (process_file_info server truetype load_default recurse f token
                 path w).
Proof.
  intros Hty Hext Hslash Hr Hst Hb Hdir.
  rewrite process_file_entry by assumption. cbv zeta.
  rewrite Hr, Hst, Hb. cbn [Z.eqb Pos.eqb andb negb].
  assert (Hj : os_path_join (os_path_join OUTPUT_DIR path)
                 (fi_name f ++ u ".png") = fi_name f ++ u ".png").
  { apply os_path_join_absolute. apply startswith_iff.
    apply startswith_iff in Hslash as [rest ->].
    exists (rest ++ u ".png"). now rewrite <- app_assoc. }
  rewrite Hj.
  destruct (path_exists _ _).
  - destruct (save _ _ _); unfold events_of; cbn [snd];
      apply elem_of_cons; right; apply elem_of_cons; now left.
  - destruct Hdir as [Hdir|[d1 Hd1]]; [discriminate|]. rewrite Hd1.
    destruct (save _ _ _); unfold events_of; cbn [snd];
      do 2 (apply elem_of_cons; right); apply elem_of_cons; now left.
Qed.

(** *** Runs against a server that names entries by components *)

Lemma beneath_components (token : option str) (files : list file_info)
    (dirs : list str) (f : file_info) :
  server_well_named server ->
  well_named files ->
  beneath server token files dirs f ->
  Forall component dirs /\ component (fi_name f).
Proof.
  intros Hserver Hfiles Hb.
  induction Hb as [files f Hf | files d n r sub dirs f Hd _ Hr _ Hj _ IH].
  - split; [constructor|].
    unfold well_named in Hfiles. rewrite Forall_forall in Hfiles.
    now apply Hfiles.
  - destruct (IH (Hserver _ _ _ _ Hr Hj)) as [Hdirs Hname].
    split; [|exact Hname]. constructor; [|exact Hdirs].
    unfold well_named in Hfiles. rewrite Forall_forall in Hfiles.
    now apply Hfiles.
Qed.

(** X12.  Against a server whose listings name every entry by a path component
    (a non-empty name without a slash), the images of a run mirror the
    repository under the output root: every image renders a file entry listed
    in the repository and is saved at [screenshots/], the names of the
    directories under which the entry is listed, from the root of the
    repository down, each followed by a slash, the name of the entry and
    [.png]. *)
Theorem images_mirror_the_repository (fuel : nat) (repo_url : str)
    (token : option str) (w : world FS) (p : str) (img : image) :
  server_well_named server ->
  ESave p img ∈ events_of (main server truetype load_default fuel repo_url
                             token w) ->
  exists (dirs : list str) (f : file_info),
    in_repository server token repo_url dirs f
    /\ rendering_of server truetype load_default f img
    /\ Forall component dirs
    /\ component (fi_name f)
    /\ p = u "screenshots/" ++ concat (map (fun c => c ++ u "/") dirs)
           ++ fi_name f ++ u ".png".
Proof.
  intros Hserver Hin.
  destruct (main_saves_listed server truetype load_default fuel repo_url
              token w p img Hin) as (dirs & f & Hrepo & Hrender & ->).
  assert (Hnames : Forall component dirs /\ component (fi_name f)).
  { destruct Hrepo as (n & r & root & Hr & _ & Hj & Hb).
    apply (beneath_components token root); [exact Hserver | | exact Hb].
    exact (Hserver _ _ _ _ Hr Hj). }
  destruct Hnames as [Hdirs Hname].
  exists dirs, f. split; [exact Hrepo|]. split; [exact Hrender|].
  split; [exact Hdirs|]. split; [exact Hname|].
  now apply mirrored_path.
Qed.

End DestinationFacts.


(** ** [main] *)

Section MainFacts.
Context {FS : Type} `{FileSystem FS}.
Variable server : nat -> request -> http_result.
Variable truetype : str -> Z -> option font.
Variable load_default : font.

(** X13.  The first thing [main] does is to ask for the listing of the
    repository.  For a text [<rest>] in which [https://github.com/] does not
    occur: of the repository URL [https://github.com/<rest>] the prefix is
    dropped and the request goes to the API root, [<rest>] and [/contents];
    and given [<rest>] itself for the repository URL, [main] puts it there
    whole, unchecked.  The request carries the headers of a listing fetch. *)
Theorem main_asks_for_the_contents (fuel : nat) (rest : str)
    (token : option str) (w : world FS) :
  ~ occurs (u "https://github.com/") rest ->
  (exists evs,
      events_of (main server truetype load_default fuel
                   (u "https://github.com/" ++ rest) token w)
      = EGet {| req_url := u "https://api.github.com/repos/" ++ rest
                           ++ u "/contents";
                req_headers := listing_headers token |} :: evs)
  /\ (exists evs,
        events_of (main server truetype load_default fuel rest token w)
        = EGet {| req_url := u "https://api.github.com/repos/" ++ rest
                             ++ u "/contents";
                  req_headers := listing_headers token |} :: evs).
Proof.
  intros Hno. destruct (api_url_of_repo_url rest Hno) as [E1 E2].
  assert (Hfirst : forall repo_url,
             exists evs,
               events_of (main server truetype load_default fuel repo_url
                            token w)
               = EGet {| req_url := api_url repo_url;
                         req_headers := listing_headers token |} :: evs).
  { intros repo_url. unfold main. cbv zeta. fold (api_url repo_url).
    destruct (get_files_first_request server (api_url repo_url) token w)
      as [evs Hevs].
    unfold bind, events_of in *.
    destruct (get_files_from_github _ _ _ _ _) as [[[files| |] w1] ev1];
      cbn [snd] in *; subst ev1; [|eauto..].
    destruct files as [[[|x xs]|[|]]|]; unfold raise, ret;
      try (destruct (process_files _ _ _ _ _ _ _ _) as [[o2 w2] ev2]);
      cbn [snd app]; eauto. }
  split.
  - destruct (Hfirst (u "https://github.com/" ++ rest)) as [evs Hevs].
    rewrite E1 in Hevs. eauto.
  - destruct (Hfirst rest) as [evs Hevs]. rewrite E2 in Hevs. eauto.
Qed.

End MainFacts.

(** ** The further statements at concrete inputs *)

Lemma main_asks_for_the_contents_witness :
  exists evs,
    events_of (main repo_server no_truetype bitmap_font 5
                 (u "https://github.com/" ++ u "user/repo") None start)
    = EGet {| req_url := u "https://api.github.com/repos/" ++ u "user/repo"
                         ++ u "/contents";
              req_headers := listing_headers None |} :: evs.
Proof.
  apply (main_asks_for_the_contents repo_server no_truetype bitmap_font 5
           (u "user/repo") None start).
  apply shorter_not_occurs. vm_compute. lia.
Defined.

Lemma repo_server_well_named : server_well_named repo_server.
Proof.
  intros n rq r l. unfold repo_server, ok_listing, ok_text, status.
  repeat case_bool_decide; intros [= <-]; cbn [json]; intros [= <-];
    unfold well_named;
    repeat (constructor; [apply is_component_correct; reflexivity|]);
    constructor.
Qed.

Lemma saved_path_keeps_name_witness :
  exists (dirs : list str) (f : file_info) (front : str),
    in_repository repo_server (Some (u "tok"))
      (u "https://github.com/user/repo") dirs f
    /\ rendering_of repo_server no_truetype bitmap_font f
         (rendered_image no_truetype bitmap_font (u "print(1)" ++ [10%N]))
    /\ u "screenshots/main.py.png" = front ++ fi_name f ++ u ".png".
Proof.
  apply (saved_path_keeps_name repo_server no_truetype bitmap_font 5
           (u "https://github.com/user/repo") (Some (u "tok")) start
           (u "screenshots/main.py.png")
           (rendered_image no_truetype bitmap_font (u "print(1)" ++ [10%N]))).
  apply list_elem_of_In. vm_compute. do 3 right. left. reflexivity.
Defined.

Lemma saved_canvas_has_text_witness :
  exists content,
    blank content = false
    /\ rendered_image no_truetype bitmap_font (u "print(1)" ++ [10%N])
       = rendered_image no_truetype bitmap_font content
    /\ map op_text
         (img_text (rendered_image no_truetype bitmap_font
                      (u "print(1)" ++ [10%N])))
       = splitlines content
    /\ img_text (rendered_image no_truetype bitmap_font
                   (u "print(1)" ++ [10%N])) <> [].
Proof.
  apply (saved_canvas_has_text repo_server no_truetype bitmap_font 5
           (u "https://github.com/user/repo") (Some (u "tok")) start
           (u "screenshots/main.py.png")).
  apply list_elem_of_In. vm_compute. do 3 right. left. reflexivity.
Defined.

Lemma leading_slash_leaves_output_root_witness :
  ESave (u "/tmp/evil.py" ++ u ".png")
        (rendered_image no_truetype bitmap_font (u "print(1)" ++ [10%N]))
  ∈ events_of (process_file_info repo_server no_truetype bitmap_font
                 (process_files repo_server no_truetype bitmap_font 0)
                 (entry "file" "/tmp/evil.py" "api/evil" "raw/main.py")
                 None (u "src") start).
Proof.
  apply (leading_slash_leaves_output_root repo_server no_truetype bitmap_font
           (process_files repo_server no_truetype bitmap_font 0)
           (entry "file" "/tmp/evil.py" "api/evil" "raw/main.py")
           None (u "src") start
           {| status_code := 200; text := u "print(1)" ++ [10%N];
              json := JSONDecodeError |}).
  - reflexivity.
  - vm_compute. reflexivity.
  - vm_compute. reflexivity.
  - vm_compute. reflexivity.
  - reflexivity.
  - vm_compute. reflexivity.
  - right. vm_compute. eexists. reflexivity.
Defined.

Lemma images_mirror_the_repository_witness :
  exists (dirs : list str) (f : file_info),
    in_repository repo_server (Some (u "tok"))
      (u "https://github.com/user/repo") dirs f
    /\ rendering_of repo_server no_truetype bitmap_font f
         (rendered_image no_truetype bitmap_font (u "x = 1"))
    /\ Forall component dirs
    /\ component (fi_name f)
    /\ u "screenshots/src/utils/helper.py.png"
       = u "screenshots/" ++ concat (map (fun c => c ++ u "/") dirs)
         ++ fi_name f ++ u ".png".
Proof.
  apply (images_mirror_the_repository repo_server no_truetype bitmap_font 5
           (u "https://github.com/user/repo") (Some (u "tok")) start
           (u "screenshots/src/utils/helper.py.png")
           (rendered_image no_truetype bitmap_font (u "x = 1"))).
  - exact repo_server_well_named.
  - apply list_elem_of_In. vm_compute. do 15 right. left. reflexivity.
Defined.


(** ** Output directories *)

#[export] Instance mem_fs_lawful : LawfulFileSystem mem_fs.
Proof.
  split.
  - intros d p d'. cbn. destruct (mem_exists d p); [discriminate|].
    intros [= <-]. unfold mem_exists. cbn.
    apply orb_true_iff. left. apply bool_decide_eq_true. set_solver.
  - intros d p d' q. cbn. destruct (mem_exists d p); [discriminate|].
    intros [= <-]. unfold mem_exists. cbn.
    rewrite !orb_true_iff, !bool_decide_eq_true. intros [Hq|Hq]; [left|right].
    + set_solver.
    + exact Hq.
  - intros d p img d' q. cbn. intros [= <-]. unfold mem_exists. cbn.
    rewrite !orb_true_iff, !bool_decide_eq_true. intros [Hq|Hq]; [now left|].
    right. destruct (decide (p = q)) as [->|Hne].
    + rewrite lookup_insert_eq. eauto.
    + now rewrite lookup_insert_ne.
Qed.

Section DirectoryFacts.
Context {FS : Type} `{LawfulFileSystem FS}.
Variable server : nat -> request -> http_result.
Variable truetype : str -> Z -> option font.
Variable load_default : font.

Lemma made_dirs_app (a b : list event) :
  made_dirs (a ++ b) = made_dirs a ++ made_dirs b.
Proof. unfold made_dirs. apply omap_app. Qed.

Lemma fresh_bind {A B : Type} (m : M FS A) (k : A -> M FS B) (w : world FS) :
  makes_fresh_dirs w (m w) ->
  (forall a, outcome_of (m w) = Ok a ->
             makes_fresh_dirs (world_of (m w)) (k a (world_of (m w)))) ->
  makes_fresh_dirs w (bind m k w).
Proof.
  unfold makes_fresh_dirs, bind, events_of, world_of, outcome_of.
  destruct (m w) as [[[a| |] w1] ev1]; cbn [fst snd]; intros Hm Hk;
    [| destruct Hm as (Hnd & Hfresh & Hkeep & _);
       (split; [exact Hnd|]); (split; [exact Hfresh|]);
       (split; [exact Hkeep|]); intros b Hb; discriminate Hb ..].
  specialize (Hk a eq_refl). destruct (k a w1) as [[o2 w2] ev2].
  cbn [fst snd] in *.
  destruct Hm as (Hnd1 & Hfresh1 & Hkeep1 & Hmade1).
  destruct Hk as (Hnd2 & Hfresh2 & Hkeep2 & Hmade2).
  specialize (Hmade1 a eq_refl). rewrite made_dirs_app.
  split; [|split; [|split]].
  - apply NoDup_app. split; [exact Hnd1|]. split; [|exact Hnd2].
    intros p Hp1 Hp2. apply Hmade1 in Hp1. apply Hfresh2 in Hp2. congruence.
  - intros p Hp. apply elem_of_app in Hp as [Hp|Hp]; [now apply Hfresh1|].
    apply Hfresh2 in Hp. destruct (path_exists (disk w) p) eqn:E; [|reflexivity].
    apply Hkeep1 in E. congruence.
  - intros q Hq. now apply Hkeep2, Hkeep1.
  - intros b Hb p Hp. apply elem_of_app in Hp as [Hp|Hp].
    + now apply Hkeep2, Hmade1.
    + now apply (Hmade2 b).
Qed.

Lemma fresh_no_dirs {A : Type} (w : world FS)
    (r : outcome A * world FS * list event) :
  made_dirs (events_of r) = [] ->
  disk (world_of r) = disk w ->
  makes_fresh_dirs w r.
Proof.
  intros Hnone Hdisk. unfold makes_fresh_dirs. rewrite Hnone, Hdisk.
  split; [constructor|]. split; [|split]; auto.
  - intros p Hp. now apply elem_of_nil in Hp.
  - intros a _ p Hp. now apply elem_of_nil in Hp.
Qed.

Lemma fresh_get_files (url : str) (token : option str) (retries : Z)
    (w : world FS) :
  makes_fresh_dirs w (get_files_from_github server url token retries w).
Proof.
  destruct (get_files_inv server url token retries w) as (_ & Hdisk & Hev).
  apply fresh_no_dirs; [|exact Hdisk].
  induction Hev as [|ev evs [->| ->] _ IH]; [reflexivity | exact IH..].
Qed.

Lemma fresh_file_entry
    (recurse : list file_info -> option str -> str -> M FS unit)
    (f : file_info) (token : option str) (path : str) (w : world FS) :
  fi_type f = u "file" ->
  has_allowed_extension (fi_name f) = true ->
  makes_fresh_dirs w
    (process_file_info server truetype load_default recurse f token path w).
Proof.
  intros Hty Hext. rewrite process_file_entry by assumption. cbv zeta.
  destruct (server (clock w) _) as [|r];
    [now apply fresh_no_dirs|].
  destruct ((status_code r =? 200)%Z && negb (blank (text r)));
    [|now apply fresh_no_dirs].
  destruct (path_exists (disk w) (os_path_join OUTPUT_DIR path)) eqn:Hex.
  - destruct (save (disk w) _ _) as [d|] eqn:Hsave;
      [|now apply fresh_no_dirs].
    unfold makes_fresh_dirs, events_of, world_of, outcome_of.
    cbn [fst snd made_dirs omap disk]. cbn.
    split; [constructor|]. split; [|split].
    + intros p Hp. now apply elem_of_nil in Hp.
    + intros q Hq. eapply save_keeps; eauto.
    + intros a _ p Hp. now apply elem_of_nil in Hp.
  - destruct (makedirs (disk w) _) as [d1|] eqn:Hmk.
    + destruct (save d1 _ _) as [d2|] eqn:Hsave;
        unfold makes_fresh_dirs, events_of, world_of, outcome_of;
        cbn [fst snd disk]; cbn;
        (split; [apply NoDup_singleton|]); (split; [|split]).
      * intros p Hp. apply list_elem_of_singleton in Hp. now subst p.
      * intros q Hq. eapply save_keeps; [exact Hsave|].
        eapply makedirs_keeps; eauto.
      * intros a _ p Hp. apply list_elem_of_singleton in Hp. subst p.
        eapply save_keeps; [exact Hsave|]. eapply makedirs_exists; eauto.
      * intros p Hp. apply list_elem_of_singleton in Hp. now subst p.
      * intros q Hq. eapply makedirs_keeps; eauto.
      * intros a Ha. discriminate Ha.
    + unfold makes_fresh_dirs, events_of, world_of, outcome_of.
      cbn [fst snd disk]. cbn.
      split; [apply NoDup_singleton|]. split; [|split].
      * intros p Hp. apply list_elem_of_singleton in Hp. now subst p.
      * auto.
      * intros a Ha. discriminate Ha.
Qed.

Lemma fresh_for_each {A : Type} (l : list A) (body : A -> M FS unit) :
  (forall x w, makes_fresh_dirs w (body x w)) ->
  forall w, makes_fresh_dirs w (for_each l body w).
Proof.
  intros Hbody. induction l as [|x rest IH]; intros w.
  - now apply fresh_no_dirs.
  - cbn [for_each]. apply fresh_bind; [apply Hbody | intros _ _; apply IH].
Qed.

Lemma fresh_process_files (fuel : nat) :
  forall (files : list file_info) (token : option str) (path : str)
         (w : world FS),
    makes_fresh_dirs w
      (process_files server truetype load_default fuel files token path w).
Proof.
  induction fuel as [|n IH]; intros files token path w;
    [now apply fresh_no_dirs|].
  cbn [process_files]. apply fresh_for_each. clear files w. intros f w.
  destruct (bool_decide (fi_type f = u "file")
            && has_allowed_extension (fi_name f)) eqn:Hfile.
  - apply andb_true_iff in Hfile as [Hty Hext].
    apply bool_decide_eq_true in Hty. now apply fresh_file_entry.
  - destruct (decide (fi_type f = u "dir")) as [Hd|Hd].
    + rewrite process_dir_entry by exact Hd. apply fresh_bind.
      * apply fresh_get_files.
      * intros [[[|x xs]|[|]]|] _; try (now apply fresh_no_dirs). apply IH.
    + rewrite process_other_entry by assumption. now apply fresh_no_dirs.
Qed.

(** X14.  Output directories are made on demand and once.  On a disk where a
    directory that was made exists and nothing that exists disappears, a run
    calls [os.makedirs] only for paths that did not exist when the run began,
    never twice for the same path, and nothing that existed at the start is
    missing at the end. *)
Theorem directories_made_once (fuel : nat) (repo_url : str)
    (token : option str) (w : world FS) :
  NoDup (made_dirs (events_of (main server truetype load_default fuel
                                 repo_url token w)))
  /\ (forall p,
        p ∈ made_dirs (events_of (main server truetype load_default fuel
                                    repo_url token w)) ->
        path_exists (disk w) p = false)
  /\ (forall q,
        path_exists (disk w) q = true ->
        path_exists (disk (world_of (main server truetype load_default fuel
                                       repo_url token w))) q = true).
Proof.
  assert (Hmain : makes_fresh_dirs w
                    (main server truetype load_default fuel repo_url token w)).
  { unfold main. cbv zeta. apply fresh_bind.
    - apply fresh_get_files.
    - intros [[[|x xs]|[|]]|] _; try (now apply fresh_no_dirs).
      apply fresh_process_files. }
  destruct Hmain as (Hnd & Hfresh & Hkeep & _). auto.
Qed.

End DirectoryFacts.

Lemma directories_made_once_witness :
  NoDup (made_dirs (events_of (main repo_server no_truetype bitmap_font 5
                                 (u "https://github.com/user/repo") None
                                 start)))
  /\ (forall p,
        p ∈ made_dirs (events_of (main repo_server no_truetype bitmap_font 5
                                    (u "https://github.com/user/repo") None
                                    start)) ->
        path_exists (disk start) p = false).
Proof.
  destruct (@directories_made_once mem_fs mem_fs_FileSystem mem_fs_lawful
              repo_server no_truetype bitmap_font 5
              (u "https://github.com/user/repo") None start)
    as (Hnd & Hfresh & _).
  split; [exact Hnd | exact Hfresh].
Defined.
